(** * Voice embedding service: the audio-to-embedding pipeline of
      [voice-embed/main.py] and its two HTTP entry points.

    The Python module is embedded function by function.  Exceptions, log
    records and calls into the external libraries are threaded through a
    small writer/error monad, so that the order of the checks and what has
    (not) run before a rejection are visible in the result.  Sample
    arithmetic is kept behind an interface with two instances: exact real
    numbers, in which the numeric properties are proved, and IEEE-754
    binary32, the sample type of the tensors, in which the handlers run. *)

From Stdlib Require Import List String Ascii Bool Arith ZArith Lia.
From Stdlib Require Import Strings.Byte DecimalString.
From Stdlib Require Import Reals Lra.
From Stdlib Require Import Floats.SpecFloat.
Import ListNotations.

Open Scope list_scope.
Open Scope string_scope.

(** ** Exceptions, log records and the handler monad *)

Module Py.

(** [fastapi.HTTPException] and every other Python exception, the latter
    kept by the text [str(e)] gives for it. *)
Inductive exn : Type :=
| HTTPException (status_code : nat) (detail : string)
| Exception (msg : string).

Inductive level : Type := ERROR | WARNING | INFO.

(** What a request does that is visible outside the handler. *)
Inductive event : Type :=
| EvRead                              (* await file.read() *)
| EvLoad                              (* torchaudio.load *)
| EvResample (orig_freq : Z)          (* torchaudio.transforms.Resample *)
| EvEncode                            (* model.encode_batch *)
| EvLog (lv : level) (msg : string).  (* logger.error / logger.warning *)

Definition M (A : Type) : Type := (list event * (exn + A))%type.

Definition ret {A} (x : A) : M A := ([], inr x).

Definition raise {A} (e : exn) : M A := ([], inl e).

Definition bind {A B} (m : M A) (k : A -> M B) : M B :=
  match m with
  | (t, inl e) => (t, inl e)
  | (t, inr x) => let (t', r) := k x in ((t ++ t')%list, r)
  end.

Definition emit (ev : event) : M unit := ([ev], inr tt).

(** A library call that may raise: the event is recorded, then the
    outcome is returned or raised. *)
Definition call {A} (ev : event) (r : exn + A) : M A := ([ev], r).

(** [try: m  except Exception as e: h e] *)
Definition try_except {A} (m : M A) (h : exn -> M A) : M A :=
  match m with
  | (t, inl e) => let (t', r) := h e in ((t ++ t')%list, r)
  | (t, inr x) => (t, inr x)
  end.

(** [if c: raise e] *)
Definition raise_if (c : bool) (e : exn) : M unit :=
  if c then raise e else ret tt.

Definition trace {A} (m : M A) : list event := fst m.
Definition outcome {A} (m : M A) : exn + A := snd m.

End Py.
Import Py.

Notation "x <- m ;; k" := (bind m (fun x => k))
  (at level 61, m at next level, right associativity).
Notation "' pat <- m ;; k" := (bind m (fun x => match x with pat => k end))
  (at level 61, pat pattern, m at next level, right associativity).
Notation "m ;;; k" := (bind m (fun _ => k))
  (at level 61, right associativity).

(** [len(x)] is a Python int. *)
Definition len {X : Type} (l : list X) : Z := Z.of_nat (List.length l).

(** ** Sample arithmetic *)

(** The operations the pipeline applies to samples and embedding entries.
    [a_eps] is the literal [1e-8]. *)
Class Arith (T : Type) : Type := {
  a_zero : T;
  a_add : T -> T -> T;
  a_mul : T -> T -> T;
  a_div : T -> T -> T;
  a_abs : T -> T;
  a_max : T -> T -> T;
  a_sqrt : T -> T;
  a_of_Z : Z -> T;
  a_eps : T
}.

(** ** Formatting *)

(** [f"{n}"] for a Python int. *)
Definition str_of_Z (z : Z) : string :=
  match z with
  | Z0 => "0"
  | Zpos p => NilEmpty.string_of_uint (Pos.to_uint p)
  | Zneg p => "-" ++ NilEmpty.string_of_uint (Pos.to_uint p)
  end.

(** Python floats are binary64. *)
Definition prec64 : Z := 53.
Definition emax64 : Z := 1024.

Definition float_of_int (z : Z) : spec_float :=
  binary_normalize prec64 emax64 z 0 false.

(** [a / b] on two Python ints: true division, correctly rounded. *)
Definition py_truediv (a b : Z) : spec_float :=
  SFdiv prec64 emax64 (float_of_int a) (float_of_int b).

(** [p / q] rounded to the nearest integer, ties to even ([0 < q]). *)
Definition round_half_even (p q : Z) : Z :=
  let n := (p / q)%Z in
  let r := (p mod q)%Z in
  match (2 * r ?= q)%Z with
  | Lt => n
  | Gt => (n + 1)%Z
  | Eq => if Z.even n then n else (n + 1)%Z
  end.

(** The value of a finite non-negative float in hundredths, rounded as the
    format specification [.2f] rounds (on the exact binary value). *)
Definition hundredths (m : positive) (e : Z) : Z :=
  match e with
  | Zneg k => round_half_even (100 * Zpos m) (2 ^ Zpos k)
  | _ => (100 * Zpos m * 2 ^ e)%Z
  end.

Definition two_digits (z : Z) : string :=
  (if (z <? 10)%Z then "0" else "") ++ str_of_Z z.

(** [f"{x:.2f}"] *)
Definition format_2f (x : spec_float) : string :=
  match x with
  | S754_zero s => (if s then "-" else "") ++ "0.00"
  | S754_infinity s => (if s then "-" else "") ++ "inf"
  | S754_nan => "nan"
  | S754_finite s m e =>
      let h := hundredths m e in
      (if s then "-" else "") ++
      str_of_Z (h / 100) ++ "." ++ two_digits (h mod 100)
  end.

(** Containment without regard to case, for "a message containing ...". *)
Definition lower_ascii (c : ascii) : ascii :=
  let n := nat_of_ascii c in
  if ((65 <=? n) && (n <=? 90))%nat then ascii_of_nat (n + 32) else c.

Fixpoint lower (s : string) : string :=
  match s with
  | EmptyString => EmptyString
  | String c s' => String (lower_ascii c) (lower s')
  end.

Fixpoint contains (p s : string) : bool :=
  prefix p s ||
  match s with
  | EmptyString => false
  | String _ s' => contains p s'
  end.

(** ** The service *)

(** [EmbeddingResponse(BaseModel)] *)
Record EmbeddingResponse (T : Type) : Type := {
  embedding : list T;
  success : bool;
  message : string
}.
Arguments embedding {T} _.
Arguments success {T} _.
Arguments message {T} _.

(** The dict returned by [/embed-raw]. *)
Record RawResponse (T : Type) : Type := {
  raw_embedding : list T;
  raw_success : bool;
  raw_dimension : Z
}.
Arguments raw_embedding {T} _.
Arguments raw_success {T} _.
Arguments raw_dimension {T} _.

(** [UploadFile]: the content-type tag of the part, if any, and its body. *)
Record UploadFile : Type := {
  content_type : option string;
  file_body : list byte
}.

(** The dict returned by [/health]. *)
Record HealthResponse : Type := {
  status : string;
  model_loaded : bool;
  health_message : string
}.

(** What [embedding.squeeze().cpu().numpy()] can be: a 0-d array when the
    single embedding of the batch has one entry, a vector otherwise. *)
Inductive ndarray (T : Type) : Type :=
| nd0 (x : T)
| nd1 (v : list T).
Arguments nd0 {T} _.
Arguments nd1 {T} _.

(** The loaded [EncoderClassifier]: [encode_batch] on a batch of one
    waveform returns a tensor of shape [1, 1, N], kept here by its N
    entries, or raises. *)
Record EncoderClassifier (T : Type) : Type := {
  encode_batch : list T -> exn + list T
}.
Arguments encode_batch {T} _ _.

Section Service.

Context {T : Type} {A : Arith T}.

(** External collaborators. *)

(** [torchaudio.load]: channels-first samples and the sample rate. *)
Variable torchaudio_load : list byte -> exn + (list (list T) * Z).

(** [torchaudio.transforms.Resample(orig_freq, 16000)] on one channel. *)
Variable resample : Z -> list T -> exn + list T.

(** [str(e)] for an [HTTPException] (it depends on the framework
    version). *)
Variable http_str : nat -> string -> string.

Definition str (e : exn) : string :=
  match e with
  | HTTPException c d => http_str c d
  | Exception msg => msg
  end.

(** *** Tensor operations *)

Fixpoint zip_add (xs ys : list T) : list T :=
  match xs, ys with
  | x :: xs', y :: ys' => a_add x y :: zip_add xs' ys'
  | _, _ => []
  end.

(** [torch.mean(waveform, dim=0, keepdim=True)] on a [C, n] tensor. *)
Definition column_sums (w : list (list T)) : list T :=
  match w with
  | [] => []
  | c :: cs => fold_left zip_add cs c
  end.

Definition torch_mean_dim0 (w : list (list T)) : list (list T) :=
  [map (fun s => a_div s (a_of_Z (len w)))
       (column_sums w)].

(** [torch.max(t)] over all entries; it raises on a tensor without
    entries. *)
Definition torch_max (xs : list T) : exn + T :=
  match xs with
  | [] => inl (Exception
      "max(): Expected reduction dim to be specified for input.numel() == 0. Specify the reduction dim with the 'dim' argument.")
  | x :: xs' => inr (fold_left a_max xs' x)
  end.

Definition torch_abs (xs : list T) : list T := map a_abs xs.

(** [waveform / d] *)
Definition tensor_div (w : list (list T)) (d : T) : list (list T) :=
  map (map (fun x => a_div x d)) w.

(** The resampler applied along the last dimension. *)
Fixpoint resample_channels (sr : Z) (w : list (list T))
  : exn + list (list T) :=
  match w with
  | [] => inr []
  | c :: cs =>
      match resample sr c with
      | inl e => inl e
      | inr c' =>
          match resample_channels sr cs with
          | inl e => inl e
          | inr cs' => inr (c' :: cs')
          end
      end
  end.

(** [waveform.squeeze(0)]: the channel dimension has size 1 whenever this
    is reached (see [mono_channels] and [torch_max]). *)
Definition squeeze0 (w : list (list T)) : list T :=
  match w with
  | [c] => c
  | _ => List.concat w
  end.

Definition flatten (w : list (list T)) : list T := List.concat w.

(** *** [preprocess_audio] *)

Definition to_mono (waveform : list (list T)) : list (list T) :=
  if (1 <? len waveform)%Z then torch_mean_dim0 waveform else waveform.

Definition to_16k (sample_rate : Z) (waveform : list (list T))
  : M (list (list T)) :=
  if negb (sample_rate =? 16000)%Z
  then call (EvResample sample_rate) (resample_channels sample_rate waveform)
  else ret waveform.

Definition peak_normalize (waveform : list (list T))
  : M (list (list T)) :=
  match torch_max (torch_abs (flatten waveform)) with
  | inl e => raise e
  | inr m => ret (tensor_div waveform (a_add m a_eps))
  end.

(** The body of the [try] of [preprocess_audio]. *)
Definition preprocess_body (audio_bytes : list byte) : M (list T) :=
  '(waveform, sample_rate) <- call EvLoad (torchaudio_load audio_bytes) ;;
  let waveform := to_mono waveform in
  waveform <- to_16k sample_rate waveform ;;
  waveform <- peak_normalize waveform ;;
  ret (squeeze0 waveform).

Definition preprocess_audio (audio_bytes : list byte) : M (list T) :=
  try_except
    (preprocess_body audio_bytes)
    (fun e =>
       emit (EvLog ERROR ("Error preprocessing audio: " ++ str e)) ;;;
       raise (HTTPException 400 ("Audio preprocessing failed: " ++ str e))).

(** *** [generate_embedding] *)

(** [embedding.squeeze()]: every dimension of size 1 goes. *)
Definition squeeze (raw : list T) : ndarray T :=
  match raw with
  | [x] => nd0 x
  | _ => nd1 raw
  end.

Definition entries (a : ndarray T) : list T :=
  match a with
  | nd0 x => [x]
  | nd1 v => v
  end.

Definition sum_sq (v : list T) : T :=
  fold_left (fun acc x => a_add acc (a_mul x x)) v a_zero.

(** [np.linalg.norm] with its default order: the 2-norm of the entries. *)
Definition linalg_norm (a : ndarray T) : T := a_sqrt (sum_sq (entries a)).

Definition nd_div (a : ndarray T) (d : T) : ndarray T :=
  match a with
  | nd0 x => nd0 (a_div x d)
  | nd1 v => nd1 (map (fun x => a_div x d) v)
  end.

(** [embedding_np / (np.linalg.norm(embedding_np) + 1e-8)] *)
Definition l2_normalize (a : ndarray T) : ndarray T :=
  nd_div a (a_add (linalg_norm a) a_eps).

(** The entries of the result for the raw embedding [raw]. *)
Definition normalized (raw : list T) : list T :=
  entries (l2_normalize (squeeze raw)).

Definition generate_embedding (model : option (EncoderClassifier T))
    (waveform : list T) : M (ndarray T) :=
  try_except
    (match model with
     | None => raise (HTTPException 500 "Model not loaded")
     | Some m =>
         embedding <- call EvEncode (encode_batch m waveform) ;;
         let embedding_np := squeeze embedding in
         let embedding_normalized := l2_normalize embedding_np in
         ret embedding_normalized
     end)
    (fun e =>
       emit (EvLog ERROR ("Error generating embedding: " ++ str e)) ;;;
       raise (HTTPException 500 ("Embedding generation failed: " ++ str e))).

(** *** The entry points *)

(** [len(embedding)] *)
Definition nd_len (a : ndarray T) : M Z :=
  match a with
  | nd0 _ => raise (Exception "object of type 'numpy.float32' has no len()")
  | nd1 v => ret (len v)
  end.

(** [embedding.tolist()] *)
Definition tolist (a : ndarray T) : list T := entries a.

(** [file.content_type] is falsy: [None] or the empty string. *)
Definition falsy (ct : option string) : bool :=
  match ct with
  | None => true
  | Some s => (String.length s =? 0)%nat
  end.

Definition startswith (ct : option string) (p : string) : bool :=
  match ct with
  | None => false
  | Some s => prefix p s
  end.

(** The test [not file.content_type or not
    file.content_type.startswith('audio/')]. *)
Definition bad_content_type (ct : option string) : bool :=
  falsy ct || negb (startswith ct "audio/").

(** [int(0.5 * 16000)] *)
Definition min_samples : Z := 8000.

Definition content_type_detail : string :=
  "File must be an audio file (WAV preferred)".

Definition too_short_detail (n : Z) : string :=
  "Audio too short. Minimum 0.5 seconds required, got " ++
  format_2f (py_truediv n 16000) ++ " seconds".

Definition raw_too_short_detail : string :=
  "Audio too short. Minimum 0.5 seconds required".

(** [except HTTPException: raise] followed by [except Exception as e]. *)
Definition reraise_http {R} (where_ : string) (e : exn) : M R :=
  match e with
  | HTTPException c d => raise (HTTPException c d)
  | Exception _ =>
      emit (EvLog ERROR (where_ ++ str e)) ;;;
      raise (HTTPException 500 ("Internal server error: " ++ str e))
  end.

(** [POST /embed] *)
Definition create_embedding (model : option (EncoderClassifier T))
    (file : UploadFile) : M (EmbeddingResponse T) :=
  try_except
    (raise_if (bad_content_type (content_type file))
              (HTTPException 400 content_type_detail) ;;;
     audio_bytes <- call EvRead (inr (file_body file)) ;;
     raise_if (len audio_bytes =? 0)%Z
              (HTTPException 400 "Empty audio file") ;;;
     waveform <- preprocess_audio audio_bytes ;;
     raise_if (len waveform <? min_samples)%Z
              (HTTPException 400 (too_short_detail (len waveform))) ;;;
     embedding <- generate_embedding model waveform ;;
     n <- nd_len embedding ;;
     (if negb (n =? 192)%Z
      then emit (EvLog WARNING
             ("Unexpected embedding dimension: " ++ str_of_Z n ++
              ", expected 192"))
      else ret tt) ;;;
     ret {| embedding := tolist embedding;
            success := true;
            message := "Successfully generated " ++ str_of_Z n ++
                       "-dimensional embedding" |})
    (reraise_http "Unexpected error in create_embedding: ").

(** [POST /embed-raw] *)
Definition create_embedding_raw (model : option (EncoderClassifier T))
    (audio_data : list byte) : M (RawResponse T) :=
  try_except
    (raise_if (len audio_data =? 0)%Z
              (HTTPException 400 "Empty audio data") ;;;
     waveform <- preprocess_audio audio_data ;;
     raise_if (len waveform <? min_samples)%Z
              (HTTPException 400
                 raw_too_short_detail) ;;;
     embedding <- generate_embedding model waveform ;;
     let l := tolist embedding in
     n <- nd_len embedding ;;
     ret {| raw_embedding := l; raw_success := true; raw_dimension := n |})
    (reraise_http "Error in create_embedding_raw: ").

(** *** Details and log records the handlers end with *)

(** The detail a request gets when the model handle is [None]. *)
Definition not_loaded_detail : string :=
  "Embedding generation failed: " ++ http_str 500 "Model not loaded".

(** The detail when [len(embedding)] is asked of a 0-d result. *)
Definition unsized_detail : string :=
  "Internal server error: object of type 'numpy.float32' has no len()".

(** What [/embed] logs about the dimension of an [n]-entry embedding. *)
Definition dimension_warning (n : Z) : list event :=
  if (n =? 192)%Z then []
  else [EvLog WARNING ("Unexpected embedding dimension: " ++ str_of_Z n ++
                       ", expected 192")].

(** [model is not None] *)
Definition is_not_None {X : Type} (x : option X) : bool :=
  match x with
  | None => false
  | Some _ => true
  end.

(** [GET /health] *)
Definition health_check (model : option (EncoderClassifier T))
  : M HealthResponse :=
  ret {| status := "healthy";
         model_loaded := is_not_None model;
         health_message := "Voice embedding service is running" |}.

End Service.

Arguments str http_str e : simpl nomatch.

(** ** The module-level handle

    [model] is a global of the module: [None] when the module is imported,
    rebound by [load_model] and by nothing else.  A function that may
    rebind it takes the handle it finds and returns the handle it leaves,
    beside what it logged and returned or raised. *)

Section Startup.

Context {T : Type}.
Variable http_str : nat -> string -> string.

Definition Global (X : Type) : Type :=
  option (EncoderClassifier T) -> M X * option (EncoderClassifier T).

(** A step that leaves the handle alone. *)
Definition lift {X} (m : M X) : Global X := fun model => (m, model).

(** [model = m] under [global model]. *)
Definition assign (m : EncoderClassifier T) : Global unit :=
  fun _ => (ret tt, Some m).

Definition bind_global {X Y} (p : Global X) (k : X -> Global Y) : Global Y :=
  fun model =>
    match p model with
    | ((t, inl e), model1) => ((t, inl e), model1)
    | ((t, inr x), model1) =>
        match k x model1 with
        | ((t', r), model2) => (((t ++ t')%list, r), model2)
        end
    end.

(** [try: p  except Exception as e: h e]; what [p] assigned before it
    raised stays assigned. *)
Definition try_global {X} (p : Global X) (h : exn -> Global X) : Global X :=
  fun model =>
    match p model with
    | ((t, inl e), model1) =>
        match h e model1 with
        | ((t', r), model2) => (((t ++ t')%list, r), model2)
        end
    | ((t, inr x), model1) => ((t, inr x), model1)
    end.

(** A library call that leaves no mark in the trace. *)
Definition attempt {X} (r : exn + X) : M X := ([], r).

(** [load_model()]; [from_hparams] is what
    [EncoderClassifier.from_hparams(...)] does when called: it returns
    the classifier or raises. *)
Definition load_model (from_hparams : exn + EncoderClassifier T)
  : Global unit :=
  try_global
    (bind_global
       (lift (emit (EvLog INFO "Loading SpeechBrain ECAPA-TDNN model...")))
       (fun _ =>
     bind_global (lift (attempt from_hparams)) (fun m =>
     bind_global (assign m) (fun _ =>
     lift (emit (EvLog INFO "Model loaded successfully"))))))
    (fun e =>
     bind_global
       (lift (emit (EvLog ERROR ("Failed to load model: " ++ str http_str e))))
       (fun _ =>
     lift (raise e))).

(** [@app.on_event("startup")] *)
Definition startup_event (from_hparams : exn + EncoderClassifier T)
  : Global unit :=
  load_model from_hparams.

End Startup.

(** ** The two arithmetics *)

(** Exact real arithmetic. *)
#[export] Instance RArith : Arith R := {|
  a_zero := 0%R;
  a_add := Rplus;
  a_mul := Rmult;
  a_div := Rdiv;
  a_abs := Rabs;
  a_max := Rmax;
  a_sqrt := sqrt;
  a_of_Z := IZR;
  a_eps := (/ 100000000)%R
|}.

(** IEEE-754 binary32, the dtype [torchaudio.load] returns and the model
    computes in.  Every operation rounds to nearest, ties to even;
    reductions run left to right. *)
Module F32.

Definition prec : Z := 24.
Definition emax : Z := 128.

Definition of_Z (z : Z) : spec_float := binary_normalize prec emax z 0 false.

(** A binary64 value converted to binary32. *)
Definition of_float (x : spec_float) : spec_float :=
  match x with
  | S754_finite s m e => binary_normalize prec emax (cond_Zopp s (Zpos m)) e s
  | _ => x
  end.

(** The Python literal [1e-8], as the tensor operation receives it. *)
Definition eps : spec_float :=
  of_float (SFdiv prec64 emax64 (float_of_int 1) (float_of_int 100000000)).

(** The larger of two values; a NaN propagates. *)
Definition max (a b : spec_float) : spec_float :=
  match SFcompare a b with
  | Some Lt => b
  | Some _ => a
  | None => S754_nan
  end.

Definition one : spec_float := of_Z 1.

(** A finite number in its one binary32 representation: a zero, or a
    mantissa of at most 24 bits at the exponent the format fixes for
    it. *)
Definition finite (x : spec_float) : bool :=
  match x with
  | S754_zero _ => true
  | S754_finite _ m e => bounded prec emax m e
  | _ => false
  end.

(** The magnitude of a finite number: [+0], or a positive number in its
    one representation. *)
Definition magnitude (x : spec_float) : Prop :=
  x = S754_zero false \/
  exists m e, x = S754_finite false m e /\
              canonical_mantissa prec emax m e = true.

(** The number a value stands for, [m * 2 ^ e], is at most 1 in
    magnitude. *)
Definition within_unit (x : spec_float) : bool :=
  match x with
  | S754_zero _ => true
  | S754_finite _ m e => (e <=? 0)%Z && (Zpos m <=? 2 ^ (- e))%Z
  | _ => false
  end.

End F32.

#[export] Instance F32Arith : Arith spec_float := {|
  a_zero := S754_zero false;
  a_add := SFadd F32.prec F32.emax;
  a_mul := SFmul F32.prec F32.emax;
  a_div := SFdiv F32.prec F32.emax;
  a_abs := SFabs;
  a_max := F32.max;
  a_sqrt := SFsqrt F32.prec F32.emax;
  a_of_Z := F32.of_Z;
  a_eps := F32.eps
|}.

(** ** Stand-ins for the external collaborators

    They let the handlers be run on concrete requests; no theorem about the
    service depends on them. *)
Module Standin.

Section Generic.
Context {T : Type} {A : Arith T}.

(** Headerless unsigned 8-bit PCM, mono, 16 kHz: byte [b] is the sample
    [(b - 128) / 128].  No bytes, no audio. *)
Definition pcm8_load (bs : list byte) : exn + (list (list T) * Z) :=
  match bs with
  | [] => inl (Exception "Error opening audio: file is empty")
  | _ =>
      inr ([map (fun b => a_div (a_of_Z (Z.of_N (Byte.to_N b) - 128))
                                (a_of_Z 128)) bs],
           16000%Z)
  end.

(** A decoder that returns the same waveform for every input. *)
Definition const_load (w : list (list T)) (sr : Z) (_ : list byte)
  : exn + (list (list T) * Z) := inr (w, sr).

(** A resampler that keeps every sample. *)
Definition keep_all (_ : Z) (c : list T) : exn + list T := inr c.

(** A model whose embedding does not depend on the waveform. *)
Definition const_model (raw : list T) : EncoderClassifier T :=
  {| encode_batch := fun _ => inr raw |}.

(** A decoder that refuses every input, and a model that fails on every
    waveform. *)
Definition failing_load (msg : string) (_ : list byte)
  : exn + (list (list T) * Z) := inl (Exception msg).

Definition failing_model (msg : string) : EncoderClassifier T :=
  {| encode_batch := fun _ => inl (Exception msg) |}.


End Generic.

(** [str(e)] of an [HTTPException] in current Starlette. *)
Definition http_str (c : nat) (d : string) : string :=
  NilEmpty.string_of_uint (Nat.to_uint c) ++ ": " ++ d.

End Standin.

(** ** Concrete requests

    Requests and collaborators on which the handlers are run: in binary32
    with the PCM stand-in, and over the reals with a fixed waveform. *)
Module Example.

(** *** In binary32 *)

Definition model3 : EncoderClassifier spec_float :=
  Standin.const_model [F32.of_Z 1; F32.of_Z 2; F32.of_Z 2].

Definition preprocess : list byte -> M (list spec_float) :=
  preprocess_audio Standin.pcm8_load Standin.keep_all Standin.http_str.

Definition embed :
  option (EncoderClassifier spec_float) -> UploadFile ->
  M (EmbeddingResponse spec_float) :=
  create_embedding Standin.pcm8_load Standin.keep_all Standin.http_str.

Definition embed_raw :
  option (EncoderClassifier spec_float) -> list byte ->
  M (RawResponse spec_float) :=
  create_embedding_raw Standin.pcm8_load Standin.keep_all Standin.http_str.

(** [ms] milliseconds of the sample value [b] at 16 kHz. *)
Definition clip (ms : nat) (b : byte) : list byte := repeat b (16 * ms).

(** Byte [x80] is the sample 0, byte [xc0] the sample 0.5. *)
Definition silence (ms : nat) : list byte := clip ms x80.

Definition wav (bs : list byte) : UploadFile :=
  {| content_type := Some "audio/wav"; file_body := bs |}.

Definition untagged (bs : list byte) : UploadFile :=
  {| content_type := None; file_body := bs |}.

Definition text (bs : list byte) : UploadFile :=
  {| content_type := Some "text/plain"; file_body := bs |}.

(** The waveform preprocessing returns for [bs], if any. *)
Definition preprocessed (bs : list byte) : list spec_float :=
  match outcome (preprocess bs) with
  | inr w => w
  | inl _ => []
  end.

(** *** Over the reals *)

Section Reals.

Open Scope R_scope.

(** Half a second of the constant sample 1, mono, 16 kHz. *)
Definition tone : list R := repeat 1 (Z.to_nat min_samples).

Definition load_tone : list byte -> exn + (list (list R) * Z) :=
  Standin.const_load [tone] 16000%Z.



(** Two samples of silence, mono, 16 kHz. *)
Definition load_silence : list byte -> exn + (list (list R) * Z) :=
  Standin.const_load [[0; 0]] 16000%Z.



Definition embed_raw_tone :
  option (EncoderClassifier R) -> list byte -> M (RawResponse R) :=
  create_embedding_raw load_tone Standin.keep_all Standin.http_str.

End Reals.

(** The duration check of [/embed] reports [n] samples as [n / 16000]
    seconds to two decimals: the detail ends in "got 0.hh seconds" with
    [hh] hundredths no further than half a hundredth from the duration. *)
Definition duration_reported (n : Z) : bool :=
  match py_truediv n 16000 with
  | S754_zero false =>
      (n =? 0)%Z &&
      (too_short_detail n =?
       "Audio too short. Minimum 0.5 seconds required, got 0.00 seconds")
  | S754_finite false m e =>
      let h := hundredths m e in
      (0 <=? h)%Z && (h <=? 50)%Z && (Z.abs (160 * h - n) <=? 80)%Z &&
      (too_short_detail n =?
       "Audio too short. Minimum 0.5 seconds required, got 0." ++
       two_digits h ++ " seconds")
  | _ => false
  end.

End Example.

(** ** How a request can end

    The ways a request to either entry point can end, one constructor per
    check of the handler, in the order the handler makes them. *)

Section Outcomes.

Context {T : Type} {A : Arith T}.
Variable torchaudio_load : list byte -> exn + (list (list T) * Z).
Variable resample : Z -> list T -> exn + list T.
Variable http_str : nat -> string -> string.

Local Abbreviation preprocess := (preprocess_audio torchaudio_load resample http_str).
Local Abbreviation generate := (generate_embedding http_str).

(** *** Every way a request to [/embed] can end *)

Inductive embed_end (model : option (EncoderClassifier T)) (file : UploadFile)
  : M (EmbeddingResponse T) -> Prop :=
| end_content_type :
    bad_content_type (content_type file) = true ->
    embed_end model file ([], inl (HTTPException 400 content_type_detail))
| end_empty :
    bad_content_type (content_type file) = false ->
    file_body file = [] ->
    embed_end model file ([EvRead], inl (HTTPException 400 "Empty audio file"))
| end_preprocess t s :
    bad_content_type (content_type file) = false ->
    file_body file <> [] ->
    preprocess (file_body file) =
      (t, inl (HTTPException 400 ("Audio preprocessing failed: " ++ s))) ->
    embed_end model file
      (EvRead :: t,
       inl (HTTPException 400 ("Audio preprocessing failed: " ++ s)))
| end_too_short t w :
    bad_content_type (content_type file) = false ->
    file_body file <> [] ->
    preprocess (file_body file) = (t, inr w) ->
    (len w < min_samples)%Z ->
    embed_end model file
      (EvRead :: t, inl (HTTPException 400 (too_short_detail (len w))))
| end_generate t w t2 s :
    bad_content_type (content_type file) = false ->
    file_body file <> [] ->
    preprocess (file_body file) = (t, inr w) ->
    (min_samples <= len w)%Z ->
    generate model w =
      (t2, inl (HTTPException 500 ("Embedding generation failed: " ++ s))) ->
    embed_end model file
      (EvRead :: (t ++ t2)%list,
       inl (HTTPException 500 ("Embedding generation failed: " ++ s)))
| end_unsized t w t2 x :
    bad_content_type (content_type file) = false ->
    file_body file <> [] ->
    preprocess (file_body file) = (t, inr w) ->
    (min_samples <= len w)%Z ->
    generate model w = (t2, inr (nd0 x)) ->
    embed_end model file
      (EvRead :: (t ++ t2 ++
         [EvLog ERROR ("Unexpected error in create_embedding: " ++
                       "object of type 'numpy.float32' has no len()")])%list,
       inl (HTTPException 500 unsized_detail))
| end_success t w t2 v :
    bad_content_type (content_type file) = false ->
    file_body file <> [] ->
    preprocess (file_body file) = (t, inr w) ->
    (min_samples <= len w)%Z ->
    generate model w = (t2, inr (nd1 v)) ->
    embed_end model file
      (EvRead :: (t ++ t2 ++ dimension_warning (len v))%list,
       inr {| embedding := v;
              success := true;
              message := "Successfully generated " ++ str_of_Z (len v) ++
                         "-dimensional embedding" |}).

(** *** Every way a request to [/embed-raw] can end *)

Inductive embed_raw_end (model : option (EncoderClassifier T))
    (bs : list byte) : M (RawResponse T) -> Prop :=
| raw_end_empty :
    bs = [] ->
    embed_raw_end model bs ([], inl (HTTPException 400 "Empty audio data"))
| raw_end_preprocess t s :
    bs <> [] ->
    preprocess bs =
      (t, inl (HTTPException 400 ("Audio preprocessing failed: " ++ s))) ->
    embed_raw_end model bs
      (t, inl (HTTPException 400 ("Audio preprocessing failed: " ++ s)))
| raw_end_too_short t w :
    bs <> [] ->
    preprocess bs = (t, inr w) ->
    (len w < min_samples)%Z ->
    embed_raw_end model bs (t, inl (HTTPException 400 raw_too_short_detail))
| raw_end_generate t w t2 s :
    bs <> [] ->
    preprocess bs = (t, inr w) ->
    (min_samples <= len w)%Z ->
    generate model w =
      (t2, inl (HTTPException 500 ("Embedding generation failed: " ++ s))) ->
    embed_raw_end model bs
      ((t ++ t2)%list,
       inl (HTTPException 500 ("Embedding generation failed: " ++ s)))
| raw_end_unsized t w t2 x :
    bs <> [] ->
    preprocess bs = (t, inr w) ->
    (min_samples <= len w)%Z ->
    generate model w = (t2, inr (nd0 x)) ->
    embed_raw_end model bs
      ((t ++ t2 ++
         [EvLog ERROR ("Error in create_embedding_raw: " ++
                       "object of type 'numpy.float32' has no len()")])%list,
       inl (HTTPException 500 unsized_detail))
| raw_end_success t w t2 v :
    bs <> [] ->
    preprocess bs = (t, inr w) ->
    (min_samples <= len w)%Z ->
    generate model w = (t2, inr (nd1 v)) ->
    embed_raw_end model bs
      ((t ++ t2)%list,
       inr {| raw_embedding := v; raw_success := true;
              raw_dimension := len v |}).

(** The request gets as far as the model: every input check passes. *)
Definition reaches_inference (bs : list byte) : Prop :=
  bs <> [] /\
  exists t w, preprocess bs = (t, inr w) /\ (min_samples <= len w)%Z.

(** The decode / preprocess / inference pipeline left a mark in the trace. *)
Definition ran_pipeline (t : list event) : bool :=
  existsb (fun ev => match ev with
                     | EvLoad | EvResample _ | EvEncode => true
                     | _ => false
                     end) t.


(** The stages a request went through, in order: its trace without the
    log records. *)
Definition is_stage (ev : event) : bool :=
  match ev with
  | EvLog _ _ => false
  | _ => true
  end.

Definition stages (t : list event) : list event := filter is_stage t.


(** The request passes every check made before the model is looked at. *)
Definition input_ok (file : UploadFile) : Prop :=
  bad_content_type (content_type file) = false /\
  reaches_inference (file_body file).

End Outcomes.

(** ** Section 4.2 of the specification, in its own words

    The preprocessor as the specification describes it, over exact
    arithmetic and sample by sample, to be compared with
    [preprocess_audio]. *)

Module Spec.
Section Preprocessor.

Open Scope R_scope.

Variable resample : Z -> list R -> exn + list R.

(** "epsilon = 1e-8" *)
Definition eps : R := / 100000000.






(** [m] is the maximum absolute sample value of [c]. *)
Definition is_peak (m : R) (c : list R) : Prop :=
  (exists x, In x c /\ Rabs x = m) /\ (forall x, In x c -> Rabs x <= m).



End Preprocessor.

Section Postprocessor.

Open Scope R_scope.

(** The Euclidean length of a vector. *)
Definition l2_norm (v : list R) : R :=
  sqrt (fold_right (fun x acc => x * x + acc) 0 v).

(** "normalized = raw / (L2_norm(raw) + epsilon)" *)
Definition normalized (raw : list R) : list R :=
  map (fun x => x / (l2_norm raw + eps)) raw.

End Postprocessor.
End Spec.

(** ** Running the handlers: how each stage ends *)

Ltac run :=
  repeat progress
    cbn [bind try_except raise_if ret raise emit call fst snd app negb orb
         andb reraise_http trace outcome nd_len tolist entries].

Section Handlers.

Context {T : Type} {A : Arith T}.
Variable torchaudio_load : list byte -> exn + (list (list T) * Z).
Variable resample : Z -> list T -> exn + list T.
Variable http_str : nat -> string -> string.

Local Abbreviation preprocess := (preprocess_audio torchaudio_load resample http_str).
Local Abbreviation pre_body := (preprocess_body torchaudio_load resample).
Local Abbreviation generate := (generate_embedding http_str).
Local Abbreviation not_loaded_detail := (not_loaded_detail http_str).
Local Abbreviation embed := (create_embedding torchaudio_load resample http_str).
Local Abbreviation embed_raw := (create_embedding_raw torchaudio_load resample http_str).
Local Abbreviation str := (str http_str).
Local Abbreviation embed_end := (embed_end torchaudio_load resample http_str).
Local Abbreviation embed_raw_end := (embed_raw_end torchaudio_load resample http_str).
Local Abbreviation reaches_inference := (reaches_inference torchaudio_load resample http_str).

Lemma len_zero_iff {X} (l : list X) : (len l =? 0)%Z = true <-> l = [].
Proof.
  unfold len. destruct l as [|x l]; cbn [List.length].
  - split; reflexivity.
  - split; [intro H | discriminate].
    apply Z.eqb_eq in H. lia.
Qed.

Lemma len_nonempty {X} (l : list X) : l <> [] -> (len l =? 0)%Z = false.
Proof.
  intro H. destruct (len l =? 0)%Z eqn:E; [|reflexivity].
  apply len_zero_iff in E. contradiction.
Qed.

(** A computation that starts with a library call has that call first in
    its trace, also under a handler. *)
Lemma bind_call_first {X Y} ev (r : exn + X) (k : X -> M Y) :
  exists t, trace (bind (call ev r) k) = ev :: t.
Proof.
  destruct r as [e|x]; cbn [call bind trace fst].
  - eexists; reflexivity.
  - destruct (k x). eexists; reflexivity.
Qed.

Lemma try_except_first {X} ev (m : M X) h :
  (exists t, trace m = ev :: t) ->
  exists t, trace (try_except m h) = ev :: t.
Proof.
  intros [t Ht]. destruct m as [t0 [e|x]]; cbn [trace fst] in Ht; subst t0;
    cbn [try_except trace fst].
  - destruct (h e). eexists; reflexivity.
  - eexists; reflexivity.
Qed.

(** *** How [preprocess_audio] ends *)

Lemma preprocess_audio_ok bs t w :
  pre_body bs = (t, inr w) -> preprocess bs = (t, inr w).
Proof.
  unfold preprocess_audio. intros ->. reflexivity.
Qed.

Lemma preprocess_audio_fail bs t e :
  pre_body bs = (t, inl e) ->
  preprocess bs =
    ((t ++ [EvLog ERROR ("Error preprocessing audio: " ++ str e)])%list,
     inl (HTTPException 400 ("Audio preprocessing failed: " ++ str e))).
Proof.
  unfold preprocess_audio. intros ->. reflexivity.
Qed.

(** Whatever goes wrong while preprocessing leaves as a 400. *)
Lemma preprocess_audio_raises bs t e :
  preprocess bs = (t, inl e) ->
  exists s, e = HTTPException 400 ("Audio preprocessing failed: " ++ s).
Proof.
  destruct (pre_body bs) as [t0 [e0|w0]] eqn:E.
  - rewrite (preprocess_audio_fail _ _ _ E). intro H.
    injection H as _ <-. eexists; reflexivity.
  - rewrite (preprocess_audio_ok _ _ _ E). discriminate.
Qed.

(** Decoding is the first thing preprocessing does. *)
Lemma preprocess_audio_loads bs :
  exists t, trace (preprocess bs) = EvLoad :: t.
Proof.
  unfold preprocess_audio, preprocess_body.
  apply try_except_first, bind_call_first.
Qed.

(** What preprocessing leaves in the trace: the decoding, the resampling
    when the rate asks for it, and the error record when it fails. *)
Lemma preprocess_audio_trace bs :
  exists sr,
    (trace (preprocess bs) = [EvLoad] \/
     trace (preprocess bs) = [EvLoad; EvResample sr] \/
     exists msg,
       (trace (preprocess bs) = [EvLoad; EvLog ERROR msg] \/
        trace (preprocess bs) = [EvLoad; EvResample sr; EvLog ERROR msg]) /\
       exists e, outcome (preprocess bs) = inl e).
Proof.
  unfold preprocess_audio, preprocess_body, to_16k, peak_normalize.
  destruct (torchaudio_load bs) as [e|[w sr]]; run.
  { exists 0%Z. right; right. eexists; split; [left; reflexivity|].
    eexists; reflexivity. }
  exists sr.
  destruct (sr =? 16000)%Z; run.
  - destruct (torch_max _) as [e|m]; run.
    + right; right. eexists; split; [left; reflexivity|].
      eexists; reflexivity.
    + left; reflexivity.
  - destruct (resample_channels _ _ _) as [e|w']; run.
    + right; right. eexists; split; [right; reflexivity|].
      eexists; reflexivity.
    + destruct (torch_max _) as [e|m]; run.
      * right; right. eexists; split; [right; reflexivity|].
        eexists; reflexivity.
      * right; left; reflexivity.
Qed.


Lemma preprocess_audio_no_encode bs : ~ In EvEncode (trace (preprocess bs)).
Proof.
  destruct (preprocess_audio_trace bs) as [sr Ht].
  destruct Ht as [Ht|[Ht|[msg [[Ht|Ht] _]]]]; rewrite Ht; cbn [In];
    intros H; repeat destruct H as [H|H]; try discriminate; exact H.
Qed.

(** The steps behind a waveform that preprocessing returns. *)
Lemma preprocess_audio_result bs w sr out :
  torchaudio_load bs = inr (w, sr) ->
  outcome (preprocess bs) = inr out <->
  exists w2 m,
    (if (sr =? 16000)%Z then w2 = to_mono w
     else resample_channels resample sr (to_mono w) = inr w2) /\
    torch_max (torch_abs (flatten w2)) = inr m /\
    out = squeeze0 (tensor_div w2 (a_add m a_eps)).
Proof.
  intro Hload.
  unfold preprocess_audio, preprocess_body, to_16k, peak_normalize.
  rewrite Hload. run.
  destruct (sr =? 16000)%Z; run.
  - destruct (torch_max (torch_abs (flatten (to_mono w)))) as [e|m] eqn:Hm; run.
    + split; [discriminate|]. intros [w2 [m [-> [Hm' _]]]]. congruence.
    + split.
      * intro H. injection H as <-. now exists (to_mono w), m.
      * intros [w2 [m' [-> [Hm' ->]]]]. congruence.
  - destruct (resample_channels resample sr (to_mono w)) as [e|w'] eqn:Hr; run.
    + split; [discriminate|]. intros [w2 [m [Hr' _]]]. discriminate.
    + destruct (torch_max (torch_abs (flatten w'))) as [e|m] eqn:Hm; run.
      * split; [discriminate|]. intros [w2 [m [Hr' [Hm' _]]]]. congruence.
      * split.
        -- intro H. injection H as <-. now exists w', m.
        -- intros [w2 [m' [Hr' [Hm' ->]]]]. congruence.
Qed.

(** A mono waveform at 16 kHz is decoded and peak-normalized, nothing
    else. *)
Lemma preprocess_audio_mono_16k bs c m :
  torchaudio_load bs = inr ([c], 16000%Z) ->
  torch_max (torch_abs c) = inr m ->
  preprocess bs =
    ([EvLoad], inr (map (fun x => a_div x (a_add m a_eps)) c)).
Proof.
  intros Hload Hm.
  unfold preprocess_audio, preprocess_body, to_16k, peak_normalize.
  rewrite Hload. run. unfold to_mono, flatten.
  cbn [len List.length Z.of_nat Pos.of_succ_nat Z.ltb Z.compare Pos.compare
       Pos.compare_cont Z.eqb Pos.eqb negb List.concat].
  run. cbn [List.concat]. rewrite app_nil_r, Hm. run. reflexivity.
Qed.

Lemma resample_channels_Forall2 sr (w w' : list (list T)) :
  resample_channels resample sr w = inr w' <->
  Forall2 (fun c c' => resample sr c = inr c') w w'.
Proof.
  revert w'. induction w as [|c cs IH]; intro w'; cbn [resample_channels].
  - split.
    + intro H. injection H as <-. constructor.
    + intro H. inversion H. reflexivity.
  - destruct (resample sr c) as [e|c'] eqn:Hc.
    + split; [discriminate|]. intro H. inversion H; subst. congruence.
    + destruct (resample_channels resample sr cs) as [e|cs'] eqn:Hcs.
      * split; [discriminate|]. intro H. inversion H; subst.
        apply IH in H4. discriminate.
      * split.
        -- intro H. injection H as <-. constructor; [exact Hc|].
           now apply IH.
        -- intro H. inversion H; subst. apply IH in H4.
           congruence.
Qed.

(** *** How [generate_embedding] ends *)

Lemma generate_embedding_not_loaded w :
  generate None w =
    ([EvLog ERROR ("Error generating embedding: " ++
                   http_str 500 "Model not loaded")],
     inl (HTTPException 500 not_loaded_detail)).
Proof. reflexivity. Qed.

Lemma generate_embedding_ok m w raw :
  encode_batch m w = inr raw ->
  generate (Some m) w = ([EvEncode], inr (l2_normalize (squeeze raw))).
Proof.
  intro H. unfold generate_embedding. run. rewrite H. reflexivity.
Qed.

Lemma generate_embedding_fail m w e :
  encode_batch m w = inl e ->
  generate (Some m) w =
    ([EvEncode; EvLog ERROR ("Error generating embedding: " ++ str e)],
     inl (HTTPException 500 ("Embedding generation failed: " ++ str e))).
Proof.
  intro H. unfold generate_embedding. run. rewrite H. reflexivity.
Qed.

(** Whatever goes wrong while generating leaves as a 500. *)
Lemma generate_embedding_raises model w t e :
  generate model w = (t, inl e) ->
  exists s, e = HTTPException 500 ("Embedding generation failed: " ++ s).
Proof.
  destruct model as [m|].
  - destruct (encode_batch m w) as [e0|raw] eqn:E.
    + rewrite (generate_embedding_fail _ _ _ E). intro H.
      injection H as _ <-. eexists; reflexivity.
    + rewrite (generate_embedding_ok _ _ _ E). discriminate.
  - rewrite generate_embedding_not_loaded. intro H.
    injection H as _ <-. eexists; reflexivity.
Qed.

(** *** [create_embedding], check by check *)

Lemma embed_content_type model file :
  bad_content_type (content_type file) = true ->
  embed model file = ([], inl (HTTPException 400 content_type_detail)).
Proof.
  intro H. unfold create_embedding. rewrite H. reflexivity.
Qed.

Lemma embed_empty model file :
  bad_content_type (content_type file) = false ->
  file_body file = [] ->
  embed model file = ([EvRead], inl (HTTPException 400 "Empty audio file")).
Proof.
  intros H Hb. unfold create_embedding.
  rewrite H, Hb. reflexivity.
Qed.

Lemma embed_preprocess_fails model file t e :
  bad_content_type (content_type file) = false ->
  file_body file <> [] ->
  preprocess (file_body file) = (t, inl e) ->
  embed model file = (EvRead :: t, inl e).
Proof.
  intros H Hb Hp. destruct (preprocess_audio_raises _ _ _ Hp) as [s ->].
  unfold create_embedding. rewrite H. run. rewrite (len_nonempty _ Hb). run. rewrite Hp. run.
  rewrite app_nil_r. reflexivity.
Qed.

Lemma embed_too_short model file t w :
  bad_content_type (content_type file) = false ->
  file_body file <> [] ->
  preprocess (file_body file) = (t, inr w) ->
  (len w < min_samples)%Z ->
  embed model file =
    (EvRead :: t, inl (HTTPException 400 (too_short_detail (len w)))).
Proof.
  intros H Hb Hp Hl. apply Z.ltb_lt in Hl.
  unfold create_embedding. rewrite H. run. rewrite (len_nonempty _ Hb). run. rewrite Hp. run.
  rewrite Hl. run. rewrite ?app_nil_r. reflexivity.
Qed.

Lemma embed_generate_fails model file t w t2 e :
  bad_content_type (content_type file) = false ->
  file_body file <> [] ->
  preprocess (file_body file) = (t, inr w) ->
  (min_samples <= len w)%Z ->
  generate model w = (t2, inl e) ->
  embed model file = (EvRead :: (t ++ t2)%list, inl e).
Proof.
  intros H Hb Hp Hl Hg. apply Z.ltb_ge in Hl.
  destruct (generate_embedding_raises _ _ _ _ Hg) as [s ->].
  unfold create_embedding. rewrite H. run. rewrite (len_nonempty _ Hb). run. rewrite Hp. run.
  rewrite Hl. run. rewrite Hg. run. rewrite ?app_nil_r. reflexivity.
Qed.

Lemma embed_unsized model file t w t2 x :
  bad_content_type (content_type file) = false ->
  file_body file <> [] ->
  preprocess (file_body file) = (t, inr w) ->
  (min_samples <= len w)%Z ->
  generate model w = (t2, inr (nd0 x)) ->
  embed model file =
    (EvRead :: (t ++ t2 ++
       [EvLog ERROR ("Unexpected error in create_embedding: " ++
                     "object of type 'numpy.float32' has no len()")])%list,
     inl (HTTPException 500 unsized_detail)).
Proof.
  intros H Hb Hp Hl Hg. apply Z.ltb_ge in Hl.
  unfold create_embedding. rewrite H. run. rewrite (len_nonempty _ Hb). run. rewrite Hp. run.
  rewrite Hl. run. rewrite Hg. run.
  rewrite ?app_nil_r, <- ?app_assoc. reflexivity.
Qed.

Lemma embed_success model file t w t2 v :
  bad_content_type (content_type file) = false ->
  file_body file <> [] ->
  preprocess (file_body file) = (t, inr w) ->
  (min_samples <= len w)%Z ->
  generate model w = (t2, inr (nd1 v)) ->
  embed model file =
    (EvRead :: (t ++ t2 ++ dimension_warning (len v))%list,
     inr {| embedding := v;
            success := true;
            message := "Successfully generated " ++ str_of_Z (len v) ++
                       "-dimensional embedding" |}).
Proof.
  intros H Hb Hp Hl Hg. apply Z.ltb_ge in Hl.
  unfold create_embedding. rewrite H. run. rewrite (len_nonempty _ Hb). run. rewrite Hp. run.
  rewrite Hl. run. rewrite Hg. run.
  unfold dimension_warning.
  destruct (len v =? 192)%Z; run; rewrite ?app_nil_r; reflexivity.
Qed.

(** *** [create_embedding_raw], check by check *)

Lemma embed_raw_empty model :
  embed_raw model [] = ([], inl (HTTPException 400 "Empty audio data")).
Proof. reflexivity. Qed.

Lemma embed_raw_preprocess_fails model bs t e :
  bs <> [] ->
  preprocess bs = (t, inl e) ->
  embed_raw model bs = (t, inl e).
Proof.
  intros Hb Hp. destruct (preprocess_audio_raises _ _ _ Hp) as [s ->].
  unfold create_embedding_raw. rewrite (len_nonempty _ Hb). run.
  rewrite Hp. run. rewrite app_nil_r. reflexivity.
Qed.

Lemma embed_raw_too_short model bs t w :
  bs <> [] ->
  preprocess bs = (t, inr w) ->
  (len w < min_samples)%Z ->
  embed_raw model bs = (t, inl (HTTPException 400 raw_too_short_detail)).
Proof.
  intros Hb Hp Hl. apply Z.ltb_lt in Hl.
  unfold create_embedding_raw. rewrite (len_nonempty _ Hb). run.
  rewrite Hp. run. rewrite Hl. run. rewrite ?app_nil_r. reflexivity.
Qed.

Lemma embed_raw_generate_fails model bs t w t2 e :
  bs <> [] ->
  preprocess bs = (t, inr w) ->
  (min_samples <= len w)%Z ->
  generate model w = (t2, inl e) ->
  embed_raw model bs = ((t ++ t2)%list, inl e).
Proof.
  intros Hb Hp Hl Hg. apply Z.ltb_ge in Hl.
  destruct (generate_embedding_raises _ _ _ _ Hg) as [s ->].
  unfold create_embedding_raw. rewrite (len_nonempty _ Hb). run.
  rewrite Hp. run. rewrite Hl. run. rewrite Hg. run.
  rewrite ?app_nil_r. reflexivity.
Qed.

Lemma embed_raw_unsized model bs t w t2 x :
  bs <> [] ->
  preprocess bs = (t, inr w) ->
  (min_samples <= len w)%Z ->
  generate model w = (t2, inr (nd0 x)) ->
  embed_raw model bs =
    ((t ++ t2 ++
       [EvLog ERROR ("Error in create_embedding_raw: " ++
                     "object of type 'numpy.float32' has no len()")])%list,
     inl (HTTPException 500 unsized_detail)).
Proof.
  intros Hb Hp Hl Hg. apply Z.ltb_ge in Hl.
  unfold create_embedding_raw. rewrite (len_nonempty _ Hb). run.
  rewrite Hp. run. rewrite Hl. run. rewrite Hg. run.
  rewrite ?app_nil_r, <- ?app_assoc. reflexivity.
Qed.

Lemma embed_raw_success model bs t w t2 v :
  bs <> [] ->
  preprocess bs = (t, inr w) ->
  (min_samples <= len w)%Z ->
  generate model w = (t2, inr (nd1 v)) ->
  embed_raw model bs =
    ((t ++ t2)%list,
     inr {| raw_embedding := v; raw_success := true;
            raw_dimension := len v |}).
Proof.
  intros Hb Hp Hl Hg. apply Z.ltb_ge in Hl.
  unfold create_embedding_raw. rewrite (len_nonempty _ Hb). run.
  rewrite Hp. run. rewrite Hl. run. rewrite Hg. run.
  rewrite ?app_nil_r. reflexivity.
Qed.

Lemma embed_ends model file : embed_end model file (embed model file).
Proof.
  destruct (bad_content_type (content_type file)) eqn:Hc.
  { rewrite (embed_content_type _ _ Hc). now constructor. }
  destruct (file_body file) as [|b bs] eqn:Hb.
  { rewrite (embed_empty _ _ Hc Hb). now constructor. }
  assert (Hne : file_body file <> []) by (rewrite Hb; discriminate).
  clear Hb b bs.
  destruct (preprocess (file_body file)) as [t [e|w]] eqn:Hp.
  { rewrite (embed_preprocess_fails _ _ _ _ Hc Hne Hp).
    destruct (preprocess_audio_raises _ _ _ Hp) as [s ->].
    now apply end_preprocess. }
  destruct (Z_lt_le_dec (len w) min_samples) as [Hl|Hl].
  { rewrite (embed_too_short _ _ _ _ Hc Hne Hp Hl). now apply end_too_short. }
  destruct (generate model w) as [t2 [e|[x|v]]] eqn:Hg.
  - rewrite (embed_generate_fails _ _ _ _ _ _ Hc Hne Hp Hl Hg).
    destruct (generate_embedding_raises _ _ _ _ Hg) as [s ->].
    now apply end_generate with (w := w).
  - rewrite (embed_unsized _ _ _ _ _ _ Hc Hne Hp Hl Hg).
    now apply end_unsized with (w := w) (x := x).
  - rewrite (embed_success _ _ _ _ _ _ Hc Hne Hp Hl Hg).
    now apply end_success with (w := w).
Qed.

Lemma embed_raw_ends model bs : embed_raw_end model bs (embed_raw model bs).
Proof.
  assert (Hd : bs = [] \/ bs <> [])
    by (destruct bs; [left|right]; congruence).
  destruct Hd as [->|Hne].
  { rewrite embed_raw_empty. now constructor. }
  destruct (preprocess bs) as [t [e|w]] eqn:Hp.
  { rewrite (embed_raw_preprocess_fails _ _ _ _ Hne Hp).
    destruct (preprocess_audio_raises _ _ _ Hp) as [s ->].
    now apply raw_end_preprocess. }
  destruct (Z_lt_le_dec (len w) min_samples) as [Hl|Hl].
  { rewrite (embed_raw_too_short _ _ _ _ Hne Hp Hl).
    now apply raw_end_too_short with (w := w). }
  destruct (generate model w) as [t2 [e|[x|v]]] eqn:Hg.
  - rewrite (embed_raw_generate_fails _ _ _ _ _ _ Hne Hp Hl Hg).
    destruct (generate_embedding_raises _ _ _ _ Hg) as [s ->].
    now apply raw_end_generate with (w := w).
  - rewrite (embed_raw_unsized _ _ _ _ _ _ Hne Hp Hl Hg).
    now apply raw_end_unsized with (w := w) (x := x).
  - rewrite (embed_raw_success _ _ _ _ _ _ Hne Hp Hl Hg).
    now apply raw_end_success with (w := w).
Qed.

(** *** The embedding a request that is served gets *)

Lemma squeeze_vector (raw : list T) :
  List.length raw <> 1%nat -> squeeze raw = nd1 raw.
Proof.
  destruct raw as [|x [|y raw]]; cbn [List.length squeeze]; congruence.
Qed.

Lemma normalized_entries (raw : list T) :
  normalized raw =
    map (fun x => a_div x (a_add (a_sqrt (sum_sq raw)) a_eps)) raw.
Proof.
  unfold normalized, l2_normalize, linalg_norm.
  destruct raw as [|x [|y raw]]; reflexivity.
Qed.

Lemma normalized_vector (raw : list T) :
  List.length raw <> 1%nat ->
  l2_normalize (squeeze raw) = nd1 (normalized raw).
Proof.
  intro H. unfold normalized. rewrite (squeeze_vector _ H). reflexivity.
Qed.

Lemma len_normalized (raw : list T) : len (normalized raw) = len raw.
Proof.
  rewrite normalized_entries. unfold len. now rewrite length_map.
Qed.

Lemma embed_served m ct bs t w raw :
  bad_content_type ct = false ->
  bs <> [] ->
  preprocess bs = (t, inr w) ->
  (min_samples <= len w)%Z ->
  encode_batch m w = inr raw ->
  List.length raw <> 1%nat ->
  embed (Some m) {| content_type := ct; file_body := bs |} =
    (EvRead :: (t ++ [EvEncode] ++ dimension_warning (len raw))%list,
     inr {| embedding := normalized raw;
            success := true;
            message := "Successfully generated " ++ str_of_Z (len raw) ++
                       "-dimensional embedding" |}).
Proof.
  intros Hc Hb Hp Hl He Hn.
  rewrite <- (len_normalized raw).
  apply embed_success with (w := w); try assumption.
  rewrite (generate_embedding_ok _ _ _ He), (normalized_vector _ Hn).
  reflexivity.
Qed.

Lemma embed_raw_served m bs t w raw :
  bs <> [] ->
  preprocess bs = (t, inr w) ->
  (min_samples <= len w)%Z ->
  encode_batch m w = inr raw ->
  List.length raw <> 1%nat ->
  embed_raw (Some m) bs =
    ((t ++ [EvEncode])%list,
     inr {| raw_embedding := normalized raw; raw_success := true;
            raw_dimension := len raw |}).
Proof.
  intros Hb Hp Hl He Hn.
  rewrite <- (len_normalized raw).
  apply embed_raw_success with (w := w); try assumption.
  rewrite (generate_embedding_ok _ _ _ He), (normalized_vector _ Hn).
  reflexivity.
Qed.

Lemma generate_embedding_inv model w t2 a :
  generate model w = (t2, inr a) ->
  exists m raw,
    model = Some m /\ encode_batch m w = inr raw /\
    a = l2_normalize (squeeze raw) /\ t2 = [EvEncode].
Proof.
  destruct model as [m|].
  - destruct (encode_batch m w) as [e|raw] eqn:He.
    + rewrite (generate_embedding_fail _ _ _ He). discriminate.
    + rewrite (generate_embedding_ok _ _ _ He). intro H.
      injection H as <- <-. now exists m, raw.
  - rewrite generate_embedding_not_loaded. discriminate.
Qed.

Lemma normalized_of_vector (raw v : list T) :
  l2_normalize (squeeze raw) = nd1 v -> v = normalized raw.
Proof. unfold normalized. intros ->. reflexivity. Qed.

(** A response of [/embed] carries the normalized output of the model on
    the preprocessed waveform. *)
Lemma embed_response_inv model file resp :
  outcome (embed model file) = inr resp ->
  exists m t w raw,
    model = Some m /\
    preprocess (file_body file) = (t, inr w) /\
    (min_samples <= len w)%Z /\
    encode_batch m w = inr raw /\
    embedding resp = normalized raw /\ success resp = true.
Proof.
  intro H. destruct (embed_ends model file) as
      [Hc|Hc Hb|t s Hc Hb Hp|t w Hc Hb Hp Hl|t w t2 s Hc Hb Hp Hl Hg
      |t w t2 x Hc Hb Hp Hl Hg|t w t2 v Hc Hb Hp Hl Hg];
    cbn [outcome snd] in H; try discriminate.
  injection H as <-.
  destruct (generate_embedding_inv _ _ _ _ Hg) as [m [raw [-> [He [Ha _]]]]].
  exists m, t, w, raw. repeat split; try assumption.
  cbn [embedding]. apply normalized_of_vector. now rewrite Ha.
Qed.

Lemma embed_raw_response_inv model bs resp :
  outcome (embed_raw model bs) = inr resp ->
  exists m t w raw,
    model = Some m /\
    preprocess bs = (t, inr w) /\
    (min_samples <= len w)%Z /\
    encode_batch m w = inr raw /\
    raw_embedding resp = normalized raw /\ raw_success resp = true.
Proof.
  intro H. destruct (embed_raw_ends model bs) as
      [Hb|t s Hb Hp|t w Hb Hp Hl|t w t2 s Hb Hp Hl Hg
      |t w t2 x Hb Hp Hl Hg|t w t2 v Hb Hp Hl Hg];
    cbn [outcome snd] in H; try discriminate.
  injection H as <-.
  destruct (generate_embedding_inv _ _ _ _ Hg) as [m [raw [-> [He [Ha _]]]]].
  exists m, t, w, raw. repeat split; try assumption.
  cbn [raw_embedding]. apply normalized_of_vector. now rewrite Ha.
Qed.

(** *** The content-type test *)

Lemma bad_content_type_iff ct :
  bad_content_type ct = true <->
  (ct = None \/ exists s, ct = Some s /\ prefix "audio/" s = false).
Proof.
  unfold bad_content_type, falsy, startswith. destruct ct as [s|].
  - split.
    + intro H. right. exists s. split; [reflexivity|].
      destruct s as [|c s]; [reflexivity|].
      cbn [String.length Nat.eqb orb] in H.
      now apply negb_true_iff in H.
    + intros [H|[s' [H Hp]]]; [discriminate|].
      injection H as <-. rewrite Hp. apply orb_true_r.
  - split; [intros _; left; reflexivity|reflexivity].
Qed.

(** *** Claims about the order and the outcome of the checks *)

(** C10: on [/embed] the checks run in a fixed order: content type,
    emptiness, decoding and preprocessing, minimum duration.  Each rejection
    is what the request gets as soon as the checks before it pass, whatever
    the later ones would say; in particular an empty upload with a bad
    content type gets the content-type detail, not the empty-input one. *)
Theorem embed_check_order model file :
  (bad_content_type (content_type file) = true ->
     embed model file = ([], inl (HTTPException 400 content_type_detail))) /\
  (bad_content_type (content_type file) = false ->
   file_body file = [] ->
     embed model file =
       ([EvRead], inl (HTTPException 400 "Empty audio file"))) /\
  (bad_content_type (content_type file) = false ->
   file_body file <> [] ->
   forall t e, preprocess (file_body file) = (t, inl e) ->
     embed model file = (EvRead :: t, inl e) /\
     (exists t', t = EvLoad :: t') /\
     (exists s, e = HTTPException 400 ("Audio preprocessing failed: " ++ s))) /\
  (bad_content_type (content_type file) = false ->
   file_body file <> [] ->
   forall t w, preprocess (file_body file) = (t, inr w) ->
   (len w < min_samples)%Z ->
     embed model file =
       (EvRead :: t, inl (HTTPException 400 (too_short_detail (len w)))) /\
     (exists t', t = EvLoad :: t')) /\
  (bad_content_type (content_type file) = true ->
   file_body file = [] ->
     outcome (embed model file) =
       inl (HTTPException 400 content_type_detail) /\
     outcome (embed model file) <>
       inl (HTTPException 400 "Empty audio file")).
Proof.
  repeat split.
  - apply embed_content_type.
  - apply embed_empty.
  - now apply embed_preprocess_fails.
  - destruct (preprocess_audio_loads (file_body file)) as [t' Ht'].
    rewrite H1 in Ht'. exists t'. exact Ht'.
  - eapply preprocess_audio_raises; eassumption.
  - now apply embed_too_short.
  - destruct (preprocess_audio_loads (file_body file)) as [t' Ht'].
    rewrite H1 in Ht'. exists t'. exact Ht'.
  - rewrite (embed_content_type _ _ H). reflexivity.
  - rewrite (embed_content_type _ _ H). cbn [outcome snd].
    unfold content_type_detail. discriminate.
Qed.

(** C3 (amended): [/embed] rejects with the content-type detail exactly
    when the tag is absent or does not begin with "audio/" (an empty tag is
    such a tag); nothing has been read or decoded by then. *)
Theorem embed_content_type_iff model file :
  (outcome (embed model file) = inl (HTTPException 400 content_type_detail)
   <->
   (content_type file = None \/
    exists s, content_type file = Some s /\ prefix "audio/" s = false)) /\
  (outcome (embed model file) = inl (HTTPException 400 content_type_detail)
   -> trace (embed model file) = []).
Proof.
  assert (Hinv : outcome (embed model file) =
                   inl (HTTPException 400 content_type_detail) ->
                 bad_content_type (content_type file) = true).
  { intro H. destruct (embed_ends model file); cbn [outcome snd] in H;
      try assumption; exfalso; revert H;
      unfold content_type_detail, too_short_detail;
      cbn [String.append]; discriminate. }
  split; [split|].
  - intro H. apply bad_content_type_iff, Hinv, H.
  - intro H. apply bad_content_type_iff in H.
    rewrite (embed_content_type _ _ H). reflexivity.
  - intro H. rewrite (embed_content_type _ _ (Hinv H)). reflexivity.
Qed.

(** C7 (amended): an empty payload is rejected with status 400 on both
    entry points and nothing of the pipeline runs; the detail names the
    emptiness on [/embed-raw], and on [/embed] when the content type passes;
    when it does not, [/embed] answers with the content-type detail. *)
Theorem empty_payload_rejected model file :
  file_body file = [] ->
  (exists detail,
     embed_raw model (file_body file) = ([], inl (HTTPException 400 detail)) /\
     contains "empty" (lower detail) = true) /\
  (exists t detail,
     embed model file = (t, inl (HTTPException 400 detail)) /\
     ran_pipeline t = false /\
     (bad_content_type (content_type file) = false ->
        contains "empty" (lower detail) = true) /\
     (bad_content_type (content_type file) = true ->
        detail = content_type_detail)).
Proof.
  intro Hb. split.
  - rewrite Hb, embed_raw_empty. eexists. split; reflexivity.
  - destruct (bad_content_type (content_type file)) eqn:Hc.
    + rewrite (embed_content_type _ _ Hc). do 2 eexists.
      split; [reflexivity|]. split; [reflexivity|]. split; [discriminate|].
      reflexivity.
    + rewrite (embed_empty _ _ Hc Hb). do 2 eexists.
      split; [reflexivity|]. split; [reflexivity|]. split; [reflexivity|].
      discriminate.
Qed.


(** C6 (amended): while the model handle is [None] no request is served.
    A request that passes the input checks (content type on [/embed],
    non-empty payload, decodable audio of at least [min_samples] samples)
    fails with status 500, the model never being called; a request that
    fails an input check gets that check's 400 instead, since the handle is
    only looked at after preprocessing. *)
Theorem model_not_loaded file bs :
  (forall w,
     outcome (generate None w) = inl (HTTPException 500 not_loaded_detail) /\
     ~ In EvEncode (trace (generate None w))) /\
  (exists t c d,
     embed None file = (t, inl (HTTPException c d)) /\
     ~ In EvEncode t /\
     ((c = 500%nat /\ d = not_loaded_detail /\
       bad_content_type (content_type file) = false /\
       reaches_inference (file_body file)) \/
      (c = 400%nat /\
       ~ (bad_content_type (content_type file) = false /\
          reaches_inference (file_body file))))) /\
  (exists t c d,
     embed_raw None bs = (t, inl (HTTPException c d)) /\
     ~ In EvEncode t /\
     ((c = 500%nat /\ d = not_loaded_detail /\ reaches_inference bs) \/
      (c = 400%nat /\ ~ reaches_inference bs))).
Proof.
  assert (Hpre : forall b t, trace (preprocess b) = t -> ~ In EvEncode t).
  { intros b t <-. apply preprocess_audio_no_encode. }
  split; [|split].
  - intro w. rewrite generate_embedding_not_loaded. split; [reflexivity|].
    cbn [trace fst In]. intros [H|[]]. discriminate.
  - destruct (embed_ends None file) as
      [Hc|Hc Hb|t s Hc Hb Hp|t w Hc Hb Hp Hl|t w t2 s Hc Hb Hp Hl Hg
      |t w t2 x Hc Hb Hp Hl Hg|t w t2 v Hc Hb Hp Hl Hg].
    + do 3 eexists. split; [reflexivity|]. split; [intros []|]. right.
      split; [reflexivity|]. intros [Hc' _]. congruence.
    + do 3 eexists. split; [reflexivity|].
      split; [intros [H|[]]; discriminate|]. right.
      split; [reflexivity|]. intros [_ [Hne _]]. contradiction.
    + do 3 eexists. split; [reflexivity|]. split.
      { intros [H|H]; [discriminate|].
        apply (Hpre (file_body file) t); [now rewrite Hp|exact H]. }
      right. split; [reflexivity|].
      intros [_ [_ [t' [w' [Hp' _]]]]]. congruence.
    + do 3 eexists. split; [reflexivity|]. split.
      { intros [H|H]; [discriminate|].
        apply (Hpre (file_body file) t); [now rewrite Hp|exact H]. }
      right. split; [reflexivity|].
      intros [_ [_ [t' [w' [Hp' Hl']]]]].
      rewrite Hp in Hp'. injection Hp' as _ <-. lia.
    + rewrite generate_embedding_not_loaded in Hg.
      injection Hg as <- Hs. do 3 eexists. split; [reflexivity|]. split.
      { intros [H|H]; [discriminate|]. apply in_app_or in H.
        destruct H as [H|[H|[]]]; [|discriminate].
        apply (Hpre (file_body file) t); [now rewrite Hp|exact H]. }
      left. split; [reflexivity|]. split.
      { now rewrite <- Hs. }
      split; [exact Hc|]. split; [exact Hb|]. now exists t, w.
    + rewrite generate_embedding_not_loaded in Hg. discriminate.
    + rewrite generate_embedding_not_loaded in Hg. discriminate.
  - destruct (embed_raw_ends None bs) as
      [Hb|t s Hb Hp|t w Hb Hp Hl|t w t2 s Hb Hp Hl Hg
      |t w t2 x Hb Hp Hl Hg|t w t2 v Hb Hp Hl Hg].
    + do 3 eexists. split; [reflexivity|]. split; [intros []|]. right.
      split; [reflexivity|]. intros [Hne _]. contradiction.
    + do 3 eexists. split; [reflexivity|]. split.
      { apply (Hpre bs t). now rewrite Hp. }
      right. split; [reflexivity|].
      intros [_ [t' [w' [Hp' _]]]]. congruence.
    + do 3 eexists. split; [reflexivity|]. split.
      { apply (Hpre bs t). now rewrite Hp. }
      right. split; [reflexivity|].
      intros [_ [t' [w' [Hp' Hl']]]].
      rewrite Hp in Hp'. injection Hp' as _ <-. lia.
    + rewrite generate_embedding_not_loaded in Hg.
      injection Hg as <- Hs. do 3 eexists. split; [reflexivity|]. split.
      { intro H. apply in_app_or in H.
        destruct H as [H|[H|[]]]; [|discriminate].
        apply (Hpre bs t); [now rewrite Hp|exact H]. }
      left. split; [reflexivity|]. split.
      { now rewrite <- Hs. }
      split; [exact Hb|]. now exists t, w.
    + rewrite generate_embedding_not_loaded in Hg. discriminate.
    + rewrite generate_embedding_not_loaded in Hg. discriminate.
Qed.

(** *** What the status of an answer says *)

Local Abbreviation input_ok := (input_ok torchaudio_load resample http_str).

Lemma reaches_inference_preprocess bs t w :
  preprocess bs = (t, inr w) ->
  reaches_inference bs -> (min_samples <= len w)%Z.
Proof.
  intros Hp [_ [t' [w' [Hp' Hl]]]].
  rewrite Hp in Hp'. injection Hp' as _ <-. exact Hl.
Qed.

Lemma reaches_inference_fails bs t e :
  preprocess bs = (t, inl e) -> ~ reaches_inference bs.
Proof.
  intros Hp [_ [t' [w' [Hp' _]]]]. rewrite Hp in Hp'. discriminate Hp'.
Qed.

(** X1: a request never ends in anything but a response, a 400 or a 500
    (no other exception leaves a handler), and the status tells where it
    failed: it is 400 exactly when one of the checks made before the model
    is looked at fails (content type on [/embed], emptiness, decoding and
    preprocessing, minimum length), so a 500 is only ever the answer to a
    request whose input passed them all. *)
Theorem status_tells_the_stage model file bs :
  ((exists resp, outcome (embed model file) = inr resp) \/
   (exists d, outcome (embed model file) = inl (HTTPException 400 d)) \/
   (exists d, outcome (embed model file) = inl (HTTPException 500 d))) /\
  ((exists d, outcome (embed model file) = inl (HTTPException 400 d)) <->
   ~ input_ok file) /\
  ((exists resp, outcome (embed_raw model bs) = inr resp) \/
   (exists d, outcome (embed_raw model bs) = inl (HTTPException 400 d)) \/
   (exists d, outcome (embed_raw model bs) = inl (HTTPException 500 d))) /\
  ((exists d, outcome (embed_raw model bs) = inl (HTTPException 400 d)) <->
   ~ reaches_inference bs).
Proof.
  split; [|split; [|split]].
  - destruct (embed_ends model file); cbn [outcome snd];
      solve [ left; eexists; reflexivity
            | right; left; eexists; reflexivity
            | right; right; eexists; reflexivity ].
  - destruct (embed_ends model file) as
      [Hc|Hc Hb|t s Hc Hb Hp|t w Hc Hb Hp Hl|t w t2 s Hc Hb Hp Hl Hg
      |t w t2 x Hc Hb Hp Hl Hg|t w t2 v Hc Hb Hp Hl Hg]; cbn [outcome snd].
    + split; [intros _ [Hc' _]; congruence|intros _; eexists; reflexivity].
    + split; [intros _ [_ [Hne _]]; contradiction
             |intros _; eexists; reflexivity].
    + split; [intros _ [_ H]; exact (reaches_inference_fails _ _ _ Hp H)
             |intros _; eexists; reflexivity].
    + split; [|intros _; eexists; reflexivity].
      intros _ [_ H]. pose proof (reaches_inference_preprocess _ _ _ Hp H). lia.
    + split; [intros [d H]; discriminate H|].
      intro Hn. exfalso. apply Hn. split; [exact Hc|]. split; [exact Hb|].
      now exists t, w.
    + split; [intros [d H]; discriminate H|].
      intro Hn. exfalso. apply Hn. split; [exact Hc|]. split; [exact Hb|].
      now exists t, w.
    + split; [intros [d H]; discriminate H|].
      intro Hn. exfalso. apply Hn. split; [exact Hc|]. split; [exact Hb|].
      now exists t, w.
  - destruct (embed_raw_ends model bs); cbn [outcome snd];
      solve [ left; eexists; reflexivity
            | right; left; eexists; reflexivity
            | right; right; eexists; reflexivity ].
  - destruct (embed_raw_ends model bs) as
      [Hb|t s Hb Hp|t w Hb Hp Hl|t w t2 s Hb Hp Hl Hg
      |t w t2 x Hb Hp Hl Hg|t w t2 v Hb Hp Hl Hg]; cbn [outcome snd].
    + split; [intros _ [Hne _]; contradiction|intros _; eexists; reflexivity].
    + split; [intros _ H; exact (reaches_inference_fails _ _ _ Hp H)
             |intros _; eexists; reflexivity].
    + split; [|intros _; eexists; reflexivity].
      intros _ H. pose proof (reaches_inference_preprocess _ _ _ Hp H). lia.
    + split; [intros [d H]; discriminate H|].
      intro Hn. exfalso. apply Hn. split; [exact Hb|]. now exists t, w.
    + split; [intros [d H]; discriminate H|].
      intro Hn. exfalso. apply Hn. split; [exact Hb|]. now exists t, w.
    + split; [intros [d H]; discriminate H|].
      intro Hn. exfalso. apply Hn. split; [exact Hb|]. now exists t, w.
Qed.

(** *** The answers that are served *)

Lemma normalized_vector_inv (raw v : list T) :
  l2_normalize (squeeze raw) = nd1 v ->
  len v = len raw /\ List.length raw <> 1%nat.
Proof.
  destruct raw as [|x [|y raw]]; unfold l2_normalize, squeeze, nd_div; intro H.
  - injection H as <-. split; [reflexivity|discriminate].
  - discriminate H.
  - injection H as <-. split; [|cbn [List.length]; discriminate].
    unfold len. cbn [map List.length]. now rewrite length_map.
Qed.

(** X2: whatever is answered with a response says [success = true] (a
    failure is never reported in the body), names the number of entries of
    the embedding it carries, in the message on [/embed] and in the
    [dimension] field on [/embed-raw], and never carries an embedding of
    exactly one entry. *)
Theorem response_fields model file bs :
  (forall resp,
     outcome (embed model file) = inr resp ->
     success resp = true /\
     message resp =
       "Successfully generated " ++ str_of_Z (len (embedding resp)) ++
       "-dimensional embedding" /\
     len (embedding resp) <> 1%Z) /\
  (forall resp,
     outcome (embed_raw model bs) = inr resp ->
     raw_success resp = true /\
     raw_dimension resp = len (raw_embedding resp) /\
     len (raw_embedding resp) <> 1%Z).
Proof.
  split; intros resp H.
  - destruct (embed_ends model file) as
      [Hc|Hc Hb|t s Hc Hb Hp|t w Hc Hb Hp Hl|t w t2 s Hc Hb Hp Hl Hg
      |t w t2 x Hc Hb Hp Hl Hg|t w t2 v Hc Hb Hp Hl Hg];
      cbn [outcome snd] in H; try discriminate H.
    injection H as <-. cbn [success message embedding].
    destruct (generate_embedding_inv _ _ _ _ Hg) as [m [raw [_ [_ [Ha _]]]]].
    symmetry in Ha. destruct (normalized_vector_inv _ _ Ha) as [Hlen Hn].
    split; [reflexivity|]. split; [reflexivity|].
    rewrite Hlen. unfold len. lia.
  - destruct (embed_raw_ends model bs) as
      [Hb|t s Hb Hp|t w Hb Hp Hl|t w t2 s Hb Hp Hl Hg
      |t w t2 x Hb Hp Hl Hg|t w t2 v Hb Hp Hl Hg];
      cbn [outcome snd] in H; try discriminate H.
    injection H as <-. cbn [raw_success raw_dimension raw_embedding].
    destruct (generate_embedding_inv _ _ _ _ Hg) as [m [raw [_ [_ [Ha _]]]]].
    symmetry in Ha. destruct (normalized_vector_inv _ _ Ha) as [Hlen Hn].
    split; [reflexivity|]. split; [reflexivity|].
    rewrite Hlen. unfold len. lia.
Qed.

(** *** The stages of a request *)

Lemma stages_app t u : stages (t ++ u) = (stages t ++ stages u)%list.
Proof. apply filter_app. Qed.

Lemma stages_warning n : stages (dimension_warning n) = [].
Proof. unfold dimension_warning. destruct (n =? 192)%Z; reflexivity. Qed.

Lemma in_stages ev t : is_stage ev = true -> In ev t <-> In ev (stages t).
Proof.
  intro H. unfold stages. rewrite filter_In. tauto.
Qed.

Lemma preprocess_audio_stages bs :
  stages (trace (preprocess bs)) =
    match torchaudio_load bs with
    | inr (_, sr) =>
        if (sr =? 16000)%Z then [EvLoad] else [EvLoad; EvResample sr]
    | inl _ => [EvLoad]
    end.
Proof.
  unfold preprocess_audio, preprocess_body, to_16k, peak_normalize.
  destruct (torchaudio_load bs) as [e|[w sr]]; run; [reflexivity|].
  destruct (sr =? 16000)%Z; run.
  - destruct (torch_max _) as [e|m]; run; reflexivity.
  - destruct (resample_channels _ _ _) as [e|w']; run; [reflexivity|].
    destruct (torch_max _) as [e|m]; run; reflexivity.
Qed.

Lemma generate_embedding_stages model w :
  stages (trace (generate model w)) =
    if is_not_None model then [EvEncode] else [].
Proof.
  destruct model as [m|]; [|reflexivity].
  destruct (encode_batch m w) as [e|raw] eqn:E.
  - rewrite (generate_embedding_fail _ _ _ E). reflexivity.
  - rewrite (generate_embedding_ok _ _ _ E). reflexivity.
Qed.

(** The stages of a request to [/embed-raw], from what preprocessing
    did. *)
Lemma embed_raw_stages model bs :
  stages (trace (embed_raw model bs)) =
    match bs with
    | [] => []
    | _ =>
        (stages (trace (preprocess bs)) ++
         match outcome (preprocess bs) with
         | inr w =>
             if (len w <? min_samples)%Z then []
             else if is_not_None model then [EvEncode] else []
         | inl _ => []
         end)%list
    end.
Proof.
  destruct (embed_raw_ends model bs) as
      [Hb|t s Hb Hp|t w Hb Hp Hl|t w t2 s Hb Hp Hl Hg
      |t w t2 x Hb Hp Hl Hg|t w t2 v Hb Hp Hl Hg]; cbn [trace fst].
  - subst bs. reflexivity.
  - destruct bs; [contradiction|]. rewrite Hp. cbn [trace outcome fst snd].
    now rewrite app_nil_r.
  - destruct bs; [contradiction|]. rewrite Hp. cbn [trace outcome fst snd].
    apply Z.ltb_lt in Hl. rewrite Hl. now rewrite app_nil_r.
  - destruct bs; [contradiction|]. rewrite Hp. cbn [trace outcome fst snd].
    apply Z.ltb_ge in Hl. rewrite Hl, stages_app.
    rewrite <- (generate_embedding_stages model w), Hg. reflexivity.
  - destruct bs; [contradiction|]. rewrite Hp. cbn [trace outcome fst snd].
    apply Z.ltb_ge in Hl. rewrite Hl, !stages_app.
    rewrite <- (generate_embedding_stages model w), Hg.
    cbn [trace fst stages filter is_stage]. now rewrite app_nil_r.
  - destruct bs; [contradiction|]. rewrite Hp. cbn [trace outcome fst snd].
    apply Z.ltb_ge in Hl. rewrite Hl, stages_app.
    rewrite <- (generate_embedding_stages model w), Hg. reflexivity.
Qed.

(** [/embed] goes through the stages of [/embed-raw] after reading the
    upload, when the content type passes. *)
Lemma embed_stages model file :
  stages (trace (embed model file)) =
    if bad_content_type (content_type file) then []
    else EvRead :: stages (trace (embed_raw model (file_body file))).
Proof.
  destruct (embed_ends model file) as
      [Hc|Hc Hb|t s Hc Hb Hp|t w Hc Hb Hp Hl|t w t2 s Hc Hb Hp Hl Hg
      |t w t2 x Hc Hb Hp Hl Hg|t w t2 v Hc Hb Hp Hl Hg];
    rewrite Hc; cbn [trace fst]; [reflexivity| | | | | |].
  - rewrite Hb. reflexivity.
  - now rewrite (embed_raw_preprocess_fails _ _ _ _ Hb Hp).
  - now rewrite (embed_raw_too_short _ _ _ _ Hb Hp Hl).
  - now rewrite (embed_raw_generate_fails _ _ _ _ _ _ Hb Hp Hl Hg).
  - rewrite (embed_raw_unsized _ _ _ _ _ _ Hb Hp Hl Hg).
    cbn [trace fst]. change (stages (EvRead :: ?l)) with (EvRead :: stages l).
    f_equal. now rewrite !stages_app.
  - rewrite (embed_raw_success _ _ _ _ _ _ Hb Hp Hl Hg).
    cbn [trace fst]. change (stages (EvRead :: ?l)) with (EvRead :: stages l).
    f_equal. now rewrite !stages_app, stages_warning, app_nil_r.
Qed.

(** X3: a request goes through its stages in one order, each at most
    once: the upload is read (on [/embed]), the audio decoded, resampled,
    and the model run; a request that fails stops where it fails.  A
    resampling stage is there exactly when the decoder reports a rate other
    than 16000, and is given that rate. *)
Theorem stages_in_order model file bs :
  (exists sr,
     In (stages (trace (embed model file)))
        [[]; [EvRead]; [EvRead; EvLoad]; [EvRead; EvLoad; EvResample sr];
         [EvRead; EvLoad; EvEncode];
         [EvRead; EvLoad; EvResample sr; EvEncode]]) /\
  (exists sr,
     In (stages (trace (embed_raw model bs)))
        [[]; [EvLoad]; [EvLoad; EvResample sr]; [EvLoad; EvEncode];
         [EvLoad; EvResample sr; EvEncode]]) /\
  (forall sr,
     In (EvResample sr) (trace (embed_raw model bs)) <->
     bs <> [] /\ sr <> 16000%Z /\
     exists w, torchaudio_load bs = inr (w, sr)).
Proof.
  assert (Hraw : forall bs', exists sr,
     In (stages (trace (embed_raw model bs')))
        [[]; [EvLoad]; [EvLoad; EvResample sr]; [EvLoad; EvEncode];
         [EvLoad; EvResample sr; EvEncode]]).
  { intro bs'. rewrite embed_raw_stages, preprocess_audio_stages.
    destruct bs' as [|b bs']; [exists 0%Z; left; reflexivity|].
    destruct (torchaudio_load (b :: bs')) as [e|[w sr]];
      [exists 0%Z|exists sr; destruct (sr =? 16000)%Z];
      (destruct (outcome (preprocess (b :: bs'))) as [e'|w'];
       [|destruct (len w' <? min_samples)%Z; [|destruct model]]);
      cbn [app is_not_None In]; auto 8. }
  split; [|split].
  - rewrite embed_stages.
    destruct (bad_content_type (content_type file));
      [exists 0%Z; left; reflexivity|].
    destruct (Hraw (file_body file)) as [sr H]. exists sr.
    cbn [In] in H.
    destruct H as [H|[H|[H|[H|[H|[]]]]]]; rewrite <- H; cbn [In]; auto 8.
  - apply Hraw.
  - intro sr. rewrite (in_stages (EvResample sr)) by reflexivity.
    rewrite embed_raw_stages, preprocess_audio_stages.
    destruct bs as [|b bs'].
    { split; [intros []|intros [H _]; congruence]. }
    assert (Hx : forall x : list event,
               (x = [] \/ x = [EvEncode]) -> ~ In (EvResample sr) x).
    { intros x [-> | ->] H; cbn [In] in H;
        repeat destruct H as [H|H]; try discriminate H; exact H. }
    assert (Hlast : exists x, (x = [] \/ x = [EvEncode]) /\
              match outcome (preprocess (b :: bs')) with
              | inr w =>
                  if (len w <? min_samples)%Z then []
                  else if is_not_None model then [EvEncode] else []
              | inl _ => []
              end = x).
    { destruct (outcome (preprocess (b :: bs'))) as [e'|w'];
        [|destruct (len w' <? min_samples)%Z; [|destruct model]];
        eexists; split; try reflexivity; auto. }
    destruct Hlast as [x [Hx' ->]]. specialize (Hx x Hx').
    rewrite in_app_iff.
    destruct (torchaudio_load (b :: bs')) as [e|[w sr']].
    + split.
      * intros [H|H]; [|contradiction].
        cbn [In] in H. destruct H as [H|[]]. discriminate H.
      * intros [_ [_ [w H]]]. discriminate H.
    + destruct (Z.eqb_spec sr' 16000) as [E|E].
      * split.
        -- intros [H|H]; [|contradiction].
           cbn [In] in H. destruct H as [H|[]]. discriminate H.
        -- intros [_ [Hsr [w' H]]]. injection H as _ <-. contradiction.
      * split.
        -- intros [H|H]; [|contradiction].
           cbn [In] in H. destruct H as [H|[H|[]]]; [discriminate H|].
           injection H as <-. split; [discriminate|]. split; [exact E|].
           now exists w.
        -- intros [_ [_ [w' H]]]. injection H as _ <-.
           left. right. left. reflexivity.
Qed.

Lemma embed_raw_calls_model model bs :
  In EvEncode (trace (embed_raw model bs)) <->
  model <> None /\ reaches_inference bs.
Proof.
  rewrite (in_stages EvEncode) by reflexivity. rewrite embed_raw_stages.
  destruct bs as [|b bs'].
  { split; [intros []|intros [_ [H _]]; congruence]. }
  set (bs0 := b :: bs').
  assert (Hne : bs0 <> []) by discriminate.
  rewrite in_app_iff.
  assert (Hpre : ~ In EvEncode (stages (trace (preprocess bs0)))).
  { rewrite <- (in_stages EvEncode) by reflexivity.
    apply preprocess_audio_no_encode. }
  destruct (preprocess bs0) as [t [e|w]] eqn:Hp; cbn [outcome snd].
  - split; [intros [H|[]]; contradiction|].
    intros [_ H]. exfalso. exact (reaches_inference_fails _ _ _ Hp H).
  - destruct (Z.ltb_spec (len w) min_samples) as [Hl|Hl].
    + split; [intros [H|[]]; contradiction|].
      intros [_ H].
      pose proof (reaches_inference_preprocess _ _ _ Hp H). lia.
    + destruct model as [m|]; cbn [is_not_None].
      * split; [|intros _; right; left; reflexivity].
        intros _. split; [discriminate|].
        split; [exact Hne|]. now exists t, w.
      * split; [intros [H|[]]; contradiction|].
        intros [H _]. congruence.
Qed.

(** X4: the model is run exactly on the requests that pass every input
    check while a model is loaded: never on an upload with a bad content
    type, on an empty or undecodable payload, or on a waveform of fewer
    than 8000 samples. *)
Theorem model_called_iff model file bs :
  (In EvEncode (trace (embed model file)) <->
   model <> None /\ input_ok file) /\
  (In EvEncode (trace (embed_raw model bs)) <->
   model <> None /\ reaches_inference bs).
Proof.
  split; [|apply embed_raw_calls_model].
  rewrite (in_stages EvEncode) by reflexivity. rewrite embed_stages.
  destruct (bad_content_type (content_type file)) eqn:Hc.
  - split; [intros []|intros [_ [H _]]; congruence].
  - cbn [In]. rewrite <- (in_stages EvEncode) by reflexivity.
    rewrite embed_raw_calls_model. split.
    + intros [H|[H1 H2]]; [discriminate H|]. split; [exact H1|].
      split; [exact Hc|exact H2].
    + intros [H1 [_ H2]]. right. split; assumption.
Qed.

(** *** The two entry points side by side *)

(** X5: an upload whose content type passes is answered on [/embed] as
    its body is on [/embed-raw]: both serve it with the same embedding, or
    both reject it with the same status.  The details agree too, except
    for the wording of the emptiness check and of the minimum-length check
    (only [/embed] gives the duration); the stages are those of
    [/embed-raw] after the read. *)
Theorem endpoints_agree model ct bs :
  bad_content_type ct = false ->
  stages (trace (embed model {| content_type := ct; file_body := bs |})) =
    EvRead :: stages (trace (embed_raw model bs)) /\
  match outcome (embed model {| content_type := ct; file_body := bs |}),
        outcome (embed_raw model bs) with
  | inr resp, inr resp' =>
      embedding resp = raw_embedding resp' /\
      raw_dimension resp' = len (embedding resp)
  | inl (HTTPException c d), inl (HTTPException c' d') =>
      c = c' /\
      (d = d' \/
       (bs = [] /\ d = "Empty audio file" /\ d' = "Empty audio data") \/
       (d' = raw_too_short_detail /\
        exists w, outcome (preprocess bs) = inr w /\
                  d = too_short_detail (len w)))
  | _, _ => False
  end.
Proof.
  intro Hc. set (file := {| content_type := ct; file_body := bs |}).
  assert (Hc' : bad_content_type (content_type file) = false) by exact Hc.
  split.
  { rewrite embed_stages, Hc'. reflexivity. }
  assert (Hd : bs = [] \/ bs <> [])
    by (destruct bs; [left|right]; congruence).
  destruct Hd as [Hb|Hne].
  { rewrite (embed_empty model file Hc' Hb). rewrite Hb, embed_raw_empty.
    cbn [outcome snd]. split; [reflexivity|]. right. left.
    repeat split; reflexivity. }
  assert (Hne' : file_body file <> []) by exact Hne.
  destruct (preprocess bs) as [t [e|w]] eqn:Hp.
  { rewrite (embed_preprocess_fails model file t e Hc' Hne' Hp).
    rewrite (embed_raw_preprocess_fails _ _ _ _ Hne Hp).
    destruct (preprocess_audio_raises _ _ _ Hp) as [s ->].
    cbn [outcome snd]. split; [reflexivity|]. left. reflexivity. }
  destruct (Z_lt_le_dec (len w) min_samples) as [Hl|Hl].
  { rewrite (embed_too_short model file t w Hc' Hne' Hp Hl).
    rewrite (embed_raw_too_short _ _ _ _ Hne Hp Hl).
    cbn [outcome snd]. split; [reflexivity|]. right. right.
    split; [reflexivity|]. now exists w. }
  destruct (generate model w) as [t2 [e|[x|v]]] eqn:Hg.
  - rewrite (embed_generate_fails model file t w t2 e Hc' Hne' Hp Hl Hg).
    rewrite (embed_raw_generate_fails _ _ _ _ _ _ Hne Hp Hl Hg).
    destruct (generate_embedding_raises _ _ _ _ Hg) as [s ->].
    cbn [outcome snd]. split; [reflexivity|]. left. reflexivity.
  - rewrite (embed_unsized model file t w t2 x Hc' Hne' Hp Hl Hg).
    rewrite (embed_raw_unsized _ _ _ _ _ _ Hne Hp Hl Hg).
    cbn [outcome snd]. split; [reflexivity|]. left. reflexivity.
  - rewrite (embed_success model file t w t2 v Hc' Hne' Hp Hl Hg).
    rewrite (embed_raw_success _ _ _ _ _ _ Hne Hp Hl Hg).
    cbn [outcome snd embedding raw_embedding raw_dimension].
    split; reflexivity.
Qed.

(** *** What is logged about a failure *)






(** *** Failures of the collaborators *)

Lemma preprocess_audio_load_fails bs e :
  torchaudio_load bs = inl e ->
  preprocess bs =
    ([EvLoad; EvLog ERROR ("Error preprocessing audio: " ++ str e)],
     inl (HTTPException 400 ("Audio preprocessing failed: " ++ str e))).
Proof.
  intro H. apply (preprocess_audio_fail bs [EvLoad] e).
  unfold preprocess_body. rewrite H. reflexivity.
Qed.

Lemma preprocess_audio_resample_fails bs w sr e :
  torchaudio_load bs = inr (w, sr) ->
  sr <> 16000%Z ->
  resample_channels resample sr (to_mono w) = inl e ->
  preprocess bs =
    ([EvLoad; EvResample sr;
      EvLog ERROR ("Error preprocessing audio: " ++ str e)],
     inl (HTTPException 400 ("Audio preprocessing failed: " ++ str e))).
Proof.
  intros H Hsr Hr. apply (preprocess_audio_fail bs [EvLoad; EvResample sr] e).
  unfold preprocess_body, to_16k. rewrite H. run.
  apply Z.eqb_neq in Hsr. rewrite Hsr. run. rewrite Hr. reflexivity.
Qed.

(** X7: what a collaborator raises reaches the client with its text.  A
    payload the decoder refuses, and one the resampler fails on, are
    answered 400 with "Audio preprocessing failed: " before the text of the
    exception; a failure of the model on a request that got that far is
    answered 500 with "Embedding generation failed: " before it.  The
    same text is logged once at ERROR, and nothing after the failing stage
    runs. *)
Theorem failure_text_passed_on model ct bs :
  bad_content_type ct = false ->
  bs <> [] ->
  (forall e,
     torchaudio_load bs = inl e ->
     embed model {| content_type := ct; file_body := bs |} =
       ([EvRead; EvLoad;
         EvLog ERROR ("Error preprocessing audio: " ++ str e)],
        inl (HTTPException 400 ("Audio preprocessing failed: " ++ str e))) /\
     embed_raw model bs =
       ([EvLoad; EvLog ERROR ("Error preprocessing audio: " ++ str e)],
        inl (HTTPException 400 ("Audio preprocessing failed: " ++ str e)))) /\
  (forall w sr e,
     torchaudio_load bs = inr (w, sr) ->
     sr <> 16000%Z ->
     resample_channels resample sr (to_mono w) = inl e ->
     embed model {| content_type := ct; file_body := bs |} =
       ([EvRead; EvLoad; EvResample sr;
         EvLog ERROR ("Error preprocessing audio: " ++ str e)],
        inl (HTTPException 400 ("Audio preprocessing failed: " ++ str e))) /\
     embed_raw model bs =
       ([EvLoad; EvResample sr;
         EvLog ERROR ("Error preprocessing audio: " ++ str e)],
        inl (HTTPException 400 ("Audio preprocessing failed: " ++ str e)))) /\
  (forall m t w e,
     model = Some m ->
     preprocess bs = (t, inr w) ->
     (min_samples <= len w)%Z ->
     encode_batch m w = inl e ->
     embed model {| content_type := ct; file_body := bs |} =
       (EvRead :: (t ++
          [EvEncode; EvLog ERROR ("Error generating embedding: " ++ str e)])
          %list,
        inl (HTTPException 500 ("Embedding generation failed: " ++ str e))) /\
     embed_raw model bs =
       ((t ++
          [EvEncode; EvLog ERROR ("Error generating embedding: " ++ str e)])
          %list,
        inl (HTTPException 500 ("Embedding generation failed: " ++ str e)))).
Proof.
  intros Hc Hne.
  set (file := {| content_type := ct; file_body := bs |}).
  assert (Hc' : bad_content_type (content_type file) = false) by exact Hc.
  assert (Hne' : file_body file <> []) by exact Hne.
  split; [|split].
  - intros e He. pose proof (preprocess_audio_load_fails _ _ He) as Hp.
    split.
    + exact (embed_preprocess_fails model file _ _ Hc' Hne' Hp).
    + exact (embed_raw_preprocess_fails model bs _ _ Hne Hp).
  - intros w sr e Hl Hsr Hr.
    pose proof (preprocess_audio_resample_fails _ _ _ _ Hl Hsr Hr) as Hp.
    split.
    + exact (embed_preprocess_fails model file _ _ Hc' Hne' Hp).
    + exact (embed_raw_preprocess_fails model bs _ _ Hne Hp).
  - intros m t w e -> Hp Hl He.
    pose proof (generate_embedding_fail _ _ _ He) as Hg.
    split.
    + exact (embed_generate_fails (Some m) file _ _ _ _ Hc' Hne' Hp Hl Hg).
    + exact (embed_raw_generate_fails (Some m) bs _ _ _ _ Hne Hp Hl Hg).
Qed.

(** *** The number of samples of a 16 kHz recording *)

Lemma zip_add_samples (n : nat) (xs ys : list T) :
  List.length xs = n -> List.length ys = n ->
  List.length (zip_add xs ys) = n.
Proof.
  revert xs ys. induction n as [|n IH]; intros [|x xs] [|y ys];
    cbn [List.length zip_add]; try congruence.
  intros Hx Hy. f_equal. apply IH; congruence.
Qed.

Lemma column_sums_samples (n : nat) (cs : list (list T)) (c : list T) :
  List.length c = n ->
  Forall (fun d => List.length d = n) cs ->
  List.length (fold_left zip_add cs c) = n.
Proof.
  intros Hc Hcs. revert c Hc.
  induction Hcs as [|d cs Hd _ IH]; intros c Hc; cbn [fold_left].
  - exact Hc.
  - apply IH. now apply zip_add_samples.
Qed.

(** The mixdown has one channel, of as many samples as each channel of
    the recording. *)
Lemma to_mono_samples (n : nat) (w : list (list T)) :
  w <> [] ->
  Forall (fun c => List.length c = n) w ->
  exists c, to_mono w = [c] /\ List.length c = n.
Proof.
  intros Hw Hn. destruct w as [|c [|c' cs]]; [congruence| |].
  - exists c. split; [reflexivity|]. now inversion Hn.
  - unfold to_mono, torch_mean_dim0.
    replace (1 <? len (c :: c' :: cs))%Z with true
      by (symmetry; apply Z.ltb_lt; unfold len; cbn [List.length]; lia).
    eexists. split; [reflexivity|].
    rewrite length_map. cbn [column_sums].
    inversion Hn as [|? ? Hc Hcs]; subst.
    now apply column_sums_samples.
Qed.

Lemma torch_max_nonempty (c : list T) :
  c <> [] -> exists m, torch_max (torch_abs c) = inr m.
Proof.
  destruct c as [|x c]; [congruence|]. intros _.
  eexists. reflexivity.
Qed.

(** A 16 kHz recording comes out of preprocessing with the number of
    samples it has per channel, when it has any. *)
Lemma preprocess_audio_samples bs w n :
  torchaudio_load bs = inr (w, 16000%Z) ->
  w <> [] ->
  Forall (fun c => List.length c = n) w ->
  (0 < n)%nat ->
  exists out,
    preprocess bs = ([EvLoad], inr out) /\ List.length out = n.
Proof.
  intros Hload Hw Hn Hpos.
  destruct (to_mono_samples n w Hw Hn) as [c [Hc Hlen]].
  assert (Hne : c <> []) by (intros ->; cbn in Hlen; lia).
  destruct (torch_max_nonempty c Hne) as [m Hm].
  exists (map (fun x => a_div x (a_add m a_eps)) c). split.
  - unfold preprocess_audio, preprocess_body, to_16k, peak_normalize.
    rewrite Hload. run. rewrite Hc. unfold flatten.
    cbn [Z.eqb Pos.eqb negb List.concat]. run.
    cbn [List.concat]. rewrite app_nil_r, Hm. run. reflexivity.
  - now rewrite length_map.
Qed.

(** X8: for a recording at 16 kHz the minimum-length check is a check on
    the number of samples per channel, however many channels there are: it
    is rejected as too short exactly when it has fewer than 8000 (a
    recording of exactly 8000 passes), on [/embed] with the duration
    computed from that number. *)
Theorem length_check_16k model ct bs w n :
  bad_content_type ct = false ->
  bs <> [] ->
  torchaudio_load bs = inr (w, 16000%Z) ->
  w <> [] ->
  Forall (fun c => len c = n) w ->
  (0 < n)%Z ->
  ((n < 8000)%Z ->
     outcome (embed_raw model bs) =
       inl (HTTPException 400 raw_too_short_detail) /\
     outcome (embed model {| content_type := ct; file_body := bs |}) =
       inl (HTTPException 400 (too_short_detail n))) /\
  ((8000 <= n)%Z ->
     reaches_inference bs /\
     (In EvEncode (trace (embed_raw model bs)) <-> model <> None)).
Proof.
  intros Hc Hne Hload Hw Hn Hpos.
  set (file := {| content_type := ct; file_body := bs |}).
  assert (Hc' : bad_content_type (content_type file) = false) by exact Hc.
  assert (Hne' : file_body file <> []) by exact Hne.
  assert (Hn' : Forall (fun c : list T => List.length c = Z.to_nat n) w).
  { eapply Forall_impl; [|exact Hn]. cbn beta. intros c <-.
    unfold len. now rewrite Nat2Z.id. }
  destruct (preprocess_audio_samples bs w (Z.to_nat n) Hload Hw Hn')
    as [out [Hp Hlen]]; [lia|].
  assert (Hout : len out = n) by (unfold len; rewrite Hlen; lia).
  split.
  - intro Hl. rewrite <- Hout in Hl. split.
    + now rewrite (embed_raw_too_short model bs _ _ Hne Hp Hl).
    + rewrite (embed_too_short model file _ _ Hc' Hne' Hp Hl).
      now rewrite Hout.
  - intro Hl. rewrite <- Hout in Hl.
    assert (Hr : reaches_inference bs).
    { split; [exact Hne|]. now exists [EvLoad], out. }
    split; [exact Hr|].
    rewrite embed_raw_calls_model. tauto.
Qed.

(** X9: a 16 kHz recording that decodes to channels without a single
    sample is not reported as too short: taking the maximum of nothing
    fails, and the request is answered 400 as a preprocessing failure, the
    model never being run. *)
Theorem no_samples_rejected model ct bs w :
  bad_content_type ct = false ->
  bs <> [] ->
  torchaudio_load bs = inr (w, 16000%Z) ->
  Forall (fun c => len c = 0%Z) w ->
  exists msg,
    embed model {| content_type := ct; file_body := bs |} =
      ([EvRead; EvLoad; EvLog ERROR ("Error preprocessing audio: " ++ msg)],
       inl (HTTPException 400 ("Audio preprocessing failed: " ++ msg))) /\
    embed_raw model bs =
      ([EvLoad; EvLog ERROR ("Error preprocessing audio: " ++ msg)],
       inl (HTTPException 400 ("Audio preprocessing failed: " ++ msg))).
Proof.
  intros Hc Hne Hload Hw.
  set (file := {| content_type := ct; file_body := bs |}).
  assert (Hc' : bad_content_type (content_type file) = false) by exact Hc.
  assert (Hne' : file_body file <> []) by exact Hne.
  assert (Hnil : Forall (fun c : list T => c = []) w).
  { eapply Forall_impl; [|exact Hw]. cbn beta. intros c H.
    now apply len_zero_iff, Z.eqb_eq. }
  assert (Hflat : flatten (to_mono w) = []).
  { destruct w as [|c [|c' cs]]; [reflexivity| |].
    - inversion Hnil; subst. reflexivity.
    - unfold to_mono, torch_mean_dim0.
      replace (1 <? len (c :: c' :: cs))%Z with true
        by (symmetry; apply Z.ltb_lt; unfold len; cbn [List.length]; lia).
      unfold flatten. cbn [List.concat column_sums]. rewrite app_nil_r.
      inversion Hnil as [|? ? Hc0 Hcs]; subst.
      assert (E : forall l : list (list T), fold_left zip_add l [] = []).
      { induction l as [|d l IH]; [reflexivity|exact IH]. }
      now rewrite E. }
  assert (Hp : exists msg,
            preprocess bs =
              ([EvLoad; EvLog ERROR ("Error preprocessing audio: " ++ msg)],
               inl (HTTPException 400
                      ("Audio preprocessing failed: " ++ msg)))).
  { eexists.
    unfold preprocess_audio, preprocess_body, to_16k, peak_normalize.
    rewrite Hload. run. cbn [Z.eqb Pos.eqb negb]. run.
    rewrite Hflat. cbn [torch_abs map torch_max]. run. reflexivity. }
  destruct Hp as [msg Hp]. exists msg. split.
  - exact (embed_preprocess_fails model file _ _ Hc' Hne' Hp).
  - exact (embed_raw_preprocess_fails model bs _ _ Hne Hp).
Qed.

End Handlers.

(** ** Startup: binding the model handle *)

Section Lifecycle.

Context {T : Type} {A : Arith T}.
Variable torchaudio_load : list byte -> exn + (list (list T) * Z).
Variable resample : Z -> list T -> exn + list T.
Variable http_str : nat -> string -> string.

Local Abbreviation embed := (create_embedding torchaudio_load resample http_str).
Local Abbreviation embed_raw := (create_embedding_raw torchaudio_load resample http_str).
Local Abbreviation startup := (startup_event (T := T) http_str).

(** X14: when loading the classifier fails at startup, [load_model] logs
    the failure and raises the very exception it caught, and the handle
    stays what it was.  From the initial handle the service then has no
    model: [/health] still answers with status "healthy" but
    [model_loaded] false, and no request to either entry point is
    served. *)
Theorem startup_failure (e : exn) (model : option (EncoderClassifier T)) :
  startup (inl e) model =
    (([EvLog INFO "Loading SpeechBrain ECAPA-TDNN model...";
       EvLog ERROR ("Failed to load model: " ++ str http_str e)],
      inl e),
     model) /\
  health_check (snd (startup (inl e) None)) =
    ([], inr {| status := "healthy";
                model_loaded := false;
                health_message := "Voice embedding service is running" |}) /\
  (forall file resp,
     outcome (embed (snd (startup (inl e) None)) file) <> inr resp) /\
  (forall bs resp,
     outcome (embed_raw (snd (startup (inl e) None)) bs) <> inr resp).
Proof.
  split; [reflexivity|]. split; [reflexivity|].
  split.
  - intros file resp H.
    destruct (embed_response_inv _ _ _ _ _ _ H) as [m [_ [_ [_ [Hm _]]]]].
    discriminate Hm.
  - intros bs resp H.
    destruct (embed_raw_response_inv _ _ _ _ _ _ H)
      as [m [_ [_ [_ [Hm _]]]]].
    discriminate Hm.
Qed.

(** X15: when loading succeeds, [load_model] binds the handle to the
    classifier it got, whatever was bound before, and logs two INFO
    records.  From then on [/health] reports [model_loaded] true, and
    whatever either entry point serves is the normalized output of that
    classifier on the preprocessed waveform. *)
Theorem startup_success (m : EncoderClassifier T)
    (model : option (EncoderClassifier T)) :
  startup (inr m) model =
    (([EvLog INFO "Loading SpeechBrain ECAPA-TDNN model...";
       EvLog INFO "Model loaded successfully"],
      inr tt),
     Some m) /\
  health_check (snd (startup (inr m) model)) =
    ([], inr {| status := "healthy";
                model_loaded := true;
                health_message := "Voice embedding service is running" |}) /\
  (forall file resp,
     outcome (embed (snd (startup (inr m) model)) file) = inr resp ->
     exists w raw,
       outcome (preprocess_audio torchaudio_load resample http_str
                  (file_body file)) = inr w /\
       encode_batch m w = inr raw /\
       embedding resp = normalized raw) /\
  (forall bs resp,
     outcome (embed_raw (snd (startup (inr m) model)) bs) = inr resp ->
     exists w raw,
       outcome (preprocess_audio torchaudio_load resample http_str bs) =
         inr w /\
       encode_batch m w = inr raw /\
       raw_embedding resp = normalized raw).
Proof.
  split; [reflexivity|]. split; [reflexivity|].
  split.
  - intros file resp H.
    destruct (embed_response_inv _ _ _ _ _ _ H)
      as [m' [t [w [raw [Hm [Hp [_ [He [Hv _]]]]]]]]].
    injection Hm as <-. exists w, raw. rewrite Hp. now repeat split.
  - intros bs resp H.
    destruct (embed_raw_response_inv _ _ _ _ _ _ H)
      as [m' [t [w [raw [Hm [Hp [_ [He [Hv _]]]]]]]]].
    injection Hm as <-. exists w, raw. rewrite Hp. now repeat split.
Qed.

End Lifecycle.

(** ** Exact arithmetic: the numeric steps over the reals *)

Ltac arith :=
  cbn [a_zero a_add a_mul a_div a_abs a_max a_sqrt a_of_Z a_eps RArith] in *.

Section Exact.

Open Scope R_scope.

Variable torchaudio_load : list byte -> exn + (list (list R) * Z).
Variable resample : Z -> list R -> exn + list R.
Variable http_str : nat -> string -> string.

Local Abbreviation preprocess := (preprocess_audio torchaudio_load resample http_str).
Local Abbreviation generate := (generate_embedding (T := R) http_str).
Local Abbreviation embed := (create_embedding torchaudio_load resample http_str).
Local Abbreviation embed_raw := (create_embedding_raw torchaudio_load resample http_str).


(** *** The peak *)

Lemma fold_max_ge_init (l : list R) (a : R) : a <= fold_left Rmax l a.
Proof.
  revert a. induction l as [|x l IH]; intro a; cbn [fold_left].
  - lra.
  - eapply Rle_trans; [apply (Rmax_l a x)|apply IH].
Qed.

Lemma fold_max_ge_all (l : list R) (a x : R) :
  In x l -> x <= fold_left Rmax l a.
Proof.
  revert a. induction l as [|y l IH]; intros a Hin; cbn [fold_left].
  - destruct Hin.
  - destruct Hin as [<-|Hin].
    + eapply Rle_trans; [apply (Rmax_r a y)|apply fold_max_ge_init].
    + apply IH, Hin.
Qed.

Lemma fold_max_attained (l : list R) (a : R) :
  In (fold_left Rmax l a) (a :: l).
Proof.
  revert a. induction l as [|y l IH]; intro a; cbn [fold_left].
  - left; reflexivity.
  - destruct (IH (Rmax a y)) as [H|H].
    + rewrite <- H. unfold Rmax. destruct (Rle_dec a y).
      * right; left; reflexivity.
      * left; reflexivity.
    + right; right; exact H.
Qed.

Lemma is_peak_unique m m' c : Spec.is_peak m c -> Spec.is_peak m' c -> m = m'.
Proof.
  intros [[x [Hx Hm]] Hle] [[x' [Hx' Hm']] Hle'].
  apply Rle_antisym.
  - rewrite <- Hm. apply Hle', Hx.
  - rewrite <- Hm'. apply Hle, Hx'.
Qed.


Lemma torch_max_peak (c : list R) :
  c <> [] ->
  exists m, torch_max (torch_abs c) = inr m /\ Spec.is_peak m c.
Proof.
  destruct c as [|x c]; [congruence|intros _].
  unfold torch_abs. cbn [map torch_max]. arith.
  eexists; split; [reflexivity|]. split.
  - destruct (fold_max_attained (map Rabs c) (Rabs x)) as [H|H].
    + exists x. split; [left; reflexivity|exact H].
    + apply in_map_iff in H. destruct H as [y [Hy Hin]].
      exists y. split; [right; exact Hin|exact Hy].
  - intros y [<-|Hin].
    + apply fold_max_ge_init.
    + apply fold_max_ge_all, in_map, Hin.
Qed.

Lemma torch_max_empty : exists e, torch_max (torch_abs (@nil R)) = inl e.
Proof. eexists; reflexivity. Qed.

(** *** Averaging the channels *)





Lemma len_INR {X} (l : list X) : IZR (len l) = INR (List.length l).
Proof. unfold len. symmetry. apply INR_IZR_INZ. Qed.




Lemma to_mono_channels {T} {A : Arith T} (w : list (list T)) :
  (List.length (to_mono w) <= 1)%nat.
Proof.
  unfold to_mono, len. destruct (Z.ltb_spec 1 (Z.of_nat (List.length w))).
  - cbn [torch_mean_dim0 List.length]. lia.
  - lia.
Qed.

(** *** The preprocessor, step by step *)

(** What [preprocess_audio] returns is one channel, divided by its peak
    plus epsilon. *)
Lemma preprocess_audio_single bs w sr out :
  torchaudio_load bs = inr (w, sr) ->
  outcome (preprocess bs) = inr out <->
  exists c m,
    (if (sr =? 16000)%Z then [c] = to_mono w
     else resample_channels resample sr (to_mono w) = inr [c]) /\
    Spec.is_peak m c /\
    out = map (fun x => x / (m + Spec.eps)) c.
Proof.
  intro Hload. rewrite (preprocess_audio_result _ _ _ _ _ _ _ Hload). split.
  - intros [w2 [m [Hw2 [Hm ->]]]].
    assert (Hlen : (List.length w2 <= 1)%nat).
    { destruct (sr =? 16000)%Z.
      - subst w2. apply to_mono_channels.
      - apply resample_channels_Forall2, Forall2_length in Hw2.
        rewrite <- Hw2. apply to_mono_channels. }
    destruct w2 as [|c [|c' w2]]; cbn [List.length] in Hlen; [discriminate| |lia].
    unfold flatten in Hm. cbn [List.concat] in Hm. rewrite app_nil_r in Hm.
    assert (Hc : c <> []) by (intros ->; discriminate).
    destruct (torch_max_peak c Hc) as [m' [Hm' Hpeak]].
    rewrite Hm in Hm'. injection Hm' as <-.
    exists c, m. split; [|split; [exact Hpeak|reflexivity]].
    destruct (sr =? 16000)%Z; exact Hw2.
  - intros [c [m [Hw2 [Hpeak ->]]]].
    assert (Hc : c <> []).
    { destruct Hpeak as [[x [Hx _]] _]. intros ->. destruct Hx. }
    destruct (torch_max_peak c Hc) as [m' [Hm' Hpeak']].
    rewrite <- (is_peak_unique _ _ _ Hpeak Hpeak') in Hm'.
    exists [c], m. split; [|split].
    + destruct (sr =? 16000)%Z; exact Hw2.
    + unfold flatten. cbn [List.concat]. rewrite app_nil_r. exact Hm'.
    + reflexivity.
Qed.



(** *** The L2 norm *)

(** [np.linalg.norm] of a vector. *)
Local Abbreviation norm v := (linalg_norm (T := R) (nd1 v)).










(** *** The postprocessor against the specification's formula *)







(** *** What the two normalizations leave *)







(** *** Channels that carry the same signal *)

Lemma zip_add_scaled (c : list R) (a : R) :
  zip_add (map (fun x => a * x) c) c = map (fun x => (a + 1) * x) c.
Proof.
  induction c as [|x c IH]; [reflexivity|].
  cbn [map zip_add]. rewrite IH. arith. f_equal. lra.
Qed.

Lemma column_sums_repeat (c : list R) (k : nat) (a : R) :
  fold_left zip_add (repeat c k) (map (fun x => a * x) c) =
    map (fun x => (a + INR k) * x) c.
Proof.
  revert a. induction k as [|k IH]; intro a.
  - cbn [repeat fold_left INR]. apply map_ext. intro x. lra.
  - cbn [repeat fold_left]. rewrite zip_add_scaled, IH.
    apply map_ext. intro x. rewrite S_INR. lra.
Qed.

(** Averaging copies of one channel gives that channel. *)
Lemma to_mono_repeat (c : list R) (k : nat) : to_mono (repeat c (S k)) = [c].
Proof.
  destruct k as [|k]; [reflexivity|].
  unfold to_mono, torch_mean_dim0.
  replace (1 <? len (repeat c (S (S k))))%Z with true
    by (symmetry; apply Z.ltb_lt; unfold len; rewrite repeat_length; lia).
  f_equal. rewrite len_INR, repeat_length.
  change (repeat c (S (S k))) with (c :: repeat c (S k)).
  cbn [column_sums].
  pose proof (column_sums_repeat c (S k) 1) as E.
  rewrite (map_ext (fun x => 1 * x) (fun x => x)), map_id in E
    by (intro x; lra).
  rewrite E, map_map. arith.
  rewrite (map_ext _ (fun x => x)); [apply map_id|].
  intro x. pose proof (pos_INR k) as Hk. rewrite !S_INR. field. lra.
Qed.


(** X13: silence is no special case.  A 16 kHz recording of one or more
    channels of [n >= 1] zero samples comes out of preprocessing as [n]
    zero samples: the maximum is 0, and every sample is 0 divided by
    1e-8. *)
Theorem silence_preprocessed bs k n :
  torchaudio_load bs = inr (repeat (repeat 0 (S n)) (S k), 16000%Z) ->
  preprocess bs = ([EvLoad], inr (repeat 0 (S n))).
Proof.
  intro Hload.
  assert (Hp : exists out,
            preprocess bs = ([EvLoad], inr out) /\
            List.length out = S n).
  { apply preprocess_audio_samples
      with (w := repeat (repeat 0 (S n)) (S k)).
    - exact Hload.
    - discriminate.
    - apply Forall_forall. intros d Hd. apply repeat_spec in Hd.
      subst d. apply repeat_length.
    - lia. }
  destruct Hp as [out [Hp Hlen]]. rewrite Hp. do 2 f_equal.
  assert (Ho : outcome (preprocess bs) = inr out) by (now rewrite Hp).
  apply (preprocess_audio_single _ _ _ _ Hload) in Ho.
  destruct Ho as [c [m [Hc [Hpeak Hout]]]].
  cbn [Z.eqb Pos.eqb] in Hc. rewrite to_mono_repeat in Hc.
  injection Hc as ->.
  rewrite Hout. change (0 :: repeat 0 n) with (repeat 0 (S n)).
  rewrite map_repeat. f_equal. unfold Rdiv. apply Rmult_0_l.
Qed.

(** *** Louder, softer: what a change of scale leaves *)







End Exact.

(** ** Binary32: how rounding bounds the normalized samples

    [SFadd] and [SFdiv] round to nearest; what is needed of them here is
    that a sum is no less than a representable term of it, and that a
    quotient of a value by one no less is no more than 1. *)

Section Rounding32.

Local Open Scope Z_scope.

Local Ltac Zify.zify_post_hook ::= Z.to_euclidean_division_equations.

Local Abbreviation fexp32 := (fexp F32.prec F32.emax).
Local Abbreviation magnitude := F32.magnitude.

Lemma fexp32_eq (e : Z) : fexp32 e = Z.max (e - 24) (-149).
Proof. reflexivity. Qed.

(** *** Binary digits *)

Lemma digits2_pos_bounds (p : positive) :
  2 ^ (Zpos (digits2_pos p) - 1) <= Zpos p < 2 ^ Zpos (digits2_pos p).
Proof.
  induction p as [p IH|p IH|]; cbn [digits2_pos].
  - rewrite Pos2Z.inj_succ.
    replace (Z.succ (Zpos (digits2_pos p)) - 1)
      with (Z.succ (Zpos (digits2_pos p) - 1)) by lia.
    rewrite !Z.pow_succ_r by lia. lia.
  - rewrite Pos2Z.inj_succ.
    replace (Z.succ (Zpos (digits2_pos p)) - 1)
      with (Z.succ (Zpos (digits2_pos p) - 1)) by lia.
    rewrite !Z.pow_succ_r by lia. lia.
  - cbn. lia.
Qed.

Lemma Zdigits2_bounds (m : Z) :
  0 < m -> 2 ^ (Zdigits2 m - 1) <= m < 2 ^ Zdigits2 m.
Proof.
  destruct m as [|p|p]; try lia. intros _. apply digits2_pos_bounds.
Qed.

Lemma Zdigits2_nonneg (m : Z) : 0 <= Zdigits2 m.
Proof. destruct m; cbn; lia. Qed.

Lemma Zdigits2_pos (m : Z) : 0 < m -> 0 < Zdigits2 m.
Proof. destruct m; cbn; lia. Qed.

(** The number of digits is the least [k] with [m < 2 ^ k]. *)
Lemma Zdigits2_le (m k : Z) : 0 <= k -> m < 2 ^ k -> 0 <= m -> Zdigits2 m <= k.
Proof.
  intros Hk Hm H0.
  destruct (Z.eq_dec m 0) as [->|Hn]; [cbn; lia|].
  destruct (Z_le_gt_dec (Zdigits2 m) k) as [H|H]; [exact H|exfalso].
  pose proof (Zdigits2_bounds m ltac:(lia)) as [Hl _].
  assert (2 ^ k <= 2 ^ (Zdigits2 m - 1)) by (apply Z.pow_le_mono_r; lia).
  lia.
Qed.

Lemma Zdigits2_ge (m k : Z) : 2 ^ (k - 1) <= m -> 0 < m -> k <= Zdigits2 m.
Proof.
  intros Hm H0.
  destruct (Z_le_gt_dec k (Zdigits2 m)) as [H|H]; [exact H|exfalso].
  pose proof (Zdigits2_bounds m H0) as [_ Hu].
  pose proof (Zdigits2_pos m H0).
  assert (2 ^ Zdigits2 m <= 2 ^ (k - 1)) by (apply Z.pow_le_mono_r; lia).
  lia.
Qed.

Lemma Zdigits2_mono (a b : Z) : 0 < a -> a <= b -> Zdigits2 a <= Zdigits2 b.
Proof.
  intros Ha Hab. apply Zdigits2_ge; [|lia].
  pose proof (Zdigits2_bounds a Ha). lia.
Qed.

(** *** Shifting right *)

Lemma shr_1_m (r : shr_record) :
  0 <= shr_m r -> shr_m (shr_1 r) = shr_m r / 2.
Proof.
  destruct r as [m b1 b2]. cbn [shr_m].
  destruct m as [|[p|p|]|p]; cbn [shr_1 shr_m]; intro H; lia.
Qed.

Lemma iter_shr_1_m (p : positive) (r : shr_record) :
  0 <= shr_m r ->
  shr_m (iter_pos shr_1 p r) = shr_m r / 2 ^ Zpos p.
Proof.
  revert r. induction p as [p IH|p IH|]; intros r H; cbn [iter_pos].
  - assert (H1 : 0 <= shr_m (shr_1 r)) by (rewrite shr_1_m by exact H; lia).
    assert (H2 : 0 <= shr_m (iter_pos shr_1 p (shr_1 r))).
    { rewrite IH by exact H1. apply Z.div_pos; [lia|]. apply Z.pow_pos_nonneg; lia. }
    rewrite IH by exact H2. rewrite IH by exact H1. rewrite shr_1_m by exact H.
    rewrite !Z.div_div by (try apply Z.pow_pos_nonneg; lia).
    f_equal. change (Zpos p~1) with (2 * Zpos p + 1).
    replace (2 * Zpos p + 1) with (1 + Zpos p + Zpos p) by lia.
    rewrite (Z.pow_add_r 2 (1 + Zpos p) (Zpos p)) by lia.
    rewrite (Z.pow_add_r 2 1 (Zpos p)) by lia. lia.
  - assert (H2 : 0 <= shr_m (iter_pos shr_1 p r)).
    { rewrite IH by exact H. apply Z.div_pos; [lia|]. apply Z.pow_pos_nonneg; lia. }
    rewrite IH by exact H2. rewrite IH by exact H.
    rewrite !Z.div_div by (try apply Z.pow_pos_nonneg; lia).
    f_equal. change (Zpos p~0) with (2 * Zpos p).
    replace (2 * Zpos p) with (Zpos p + Zpos p) by lia.
    rewrite (Z.pow_add_r 2 (Zpos p) (Zpos p)) by lia. lia.
  - rewrite shr_1_m by exact H. reflexivity.
Qed.

Lemma shr_record_of_loc_m (m : Z) (l : location) :
  shr_m (shr_record_of_loc m l) = m.
Proof. destruct l as [|[| |]]; reflexivity. Qed.

(** [shr_fexp]: the mantissa loses [n] digits and the exponent gains
    [n], for [n] what the format asks for. *)
Lemma shr_fexp_spec (m e : Z) (l : location) :
  0 <= m ->
  let n := Z.max 0 (fexp32 (Zdigits2 m + e) - e) in
  shr_m (fst (shr_fexp F32.prec F32.emax m e l)) = m / 2 ^ n /\
  snd (shr_fexp F32.prec F32.emax m e l) = e + n.
Proof.
  intros Hm n. unfold shr_fexp, shr. subst n.
  destruct (fexp32 (Zdigits2 m + e) - e) as [|p|p] eqn:E; cbn [fst snd].
  - rewrite shr_record_of_loc_m. cbn. rewrite Z.div_1_r. lia.
  - rewrite iter_shr_1_m by (rewrite shr_record_of_loc_m; exact Hm).
    rewrite shr_record_of_loc_m.
    replace (Z.max 0 (Zpos p)) with (Zpos p) by lia. split; reflexivity.
  - rewrite shr_record_of_loc_m.
    replace (Z.max 0 (Zneg p)) with 0 by lia. cbn. rewrite Z.div_1_r. lia.
Qed.

Lemma round_nearest_even_bounds (m : Z) (l : location) :
  m <= round_nearest_even m l <= m + 1.
Proof.
  destruct l as [|[| |]]; cbn [round_nearest_even]; try lia.
  destruct (Z.even m); lia.
Qed.

(** What [binary_round_aux] returns, from the two shifts it makes. *)
Lemma binary_round_aux_spec (sx : bool) (q e : Z) (l : location) :
  0 <= q ->
  exists m1,
    let n1 := Z.max 0 (fexp32 (Zdigits2 q + e) - e) in
    let e1 := e + n1 in
    let n2 := Z.max 0 (fexp32 (Zdigits2 m1 + e1) - e1) in
    q / 2 ^ n1 <= m1 <= q / 2 ^ n1 + 1 /\
    binary_round_aux F32.prec F32.emax sx q e l =
      match m1 / 2 ^ n2 with
      | Z0 => S754_zero sx
      | Zpos p =>
          if e1 + n2 <=? 104 then S754_finite sx p (e1 + n2)
          else S754_infinity sx
      | Zneg _ => S754_nan
      end.
Proof.
  intro Hq. unfold binary_round_aux.
  destruct (shr_fexp_spec q e l Hq) as [Hm He].
  destruct (shr_fexp F32.prec F32.emax q e l) as [mrs' e1'] eqn:E1.
  cbn [fst snd] in Hm, He.
  set (m1 := round_nearest_even (shr_m mrs') (loc_of_shr_record mrs')).
  exists m1. cbn zeta.
  pose proof (round_nearest_even_bounds (shr_m mrs') (loc_of_shr_record mrs'))
    as Hr. fold m1 in Hr. rewrite Hm in Hr. split; [exact Hr|].
  assert (H1 : 0 <= m1).
  { assert (0 <= q / 2 ^ Z.max 0 (fexp32 (Zdigits2 q + e) - e)).
    { apply Z.div_pos; [lia|]. apply Z.pow_pos_nonneg; lia. }
    lia. }
  destruct (shr_fexp_spec m1 e1' loc_Exact H1) as [Hm2 He2].
  destruct (shr_fexp F32.prec F32.emax m1 e1' loc_Exact) as [mrs'' e2'] eqn:E2.
  cbn [fst snd] in Hm2, He2. subst e1'. rewrite Hm2, He2. reflexivity.
Qed.


(** *** Division *)

Lemma canonical_mantissa_iff (m : positive) (e : Z) :
  canonical_mantissa F32.prec F32.emax m e = true <->
  Z.max (Zdigits2 (Zpos m) + e - 24) (-149) = e.
Proof. unfold canonical_mantissa. rewrite Z.eqb_eq. reflexivity. Qed.

Lemma F32_one_eq : F32.one = S754_finite false 8388608 (-23).
Proof. reflexivity. Qed.

Lemma div_core_spec (mx md : positive) (ex ed : Z) :
  let e' := Z.min (fexp32 (Zdigits2 (Zpos mx) + ex - (Zdigits2 (Zpos md) + ed)))
                  (ex - ed) in
  let a := Zpos mx * 2 ^ (ex - ed - e') in
  SFdiv_core_binary F32.prec F32.emax (Zpos mx) ex (Zpos md) ed =
    (a / Zpos md, e', new_location (Zpos md) (a mod Zpos md)).
Proof.
  intros e' a. unfold SFdiv_core_binary. fold e'.
  assert (Hs : 0 <= ex - ed - e') by (unfold e'; lia).
  assert (Ha : match ex - ed - e' with
               | Zpos _ => Z.shiftl (Zpos mx) (ex - ed - e')
               | Z0 => Zpos mx
               | Zneg _ => 0
               end = a).
  { unfold a. destruct (ex - ed - e') as [|p|p] eqn:E.
    - cbn. lia.
    - rewrite Z.shiftl_mul_pow2 by lia. reflexivity.
    - lia. }
  rewrite Ha. unfold Z.div, Z.modulo.
  destruct (Z.div_eucl a (Zpos md)) as [q r]. reflexivity.
Qed.

Lemma leb_one_finite (p : positive) (e : Z) :
  e < -23 \/ (e = -23 /\ Zpos p <= 2 ^ 23) ->
  SFleb (S754_finite false p e) F32.one = true.
Proof.
  intro H. rewrite F32_one_eq. unfold SFleb, SFcompare.
  destruct (Z.compare_spec e (-23)) as [E|E|E]; [|reflexivity|lia].
  destruct H as [H|[_ H]]; [lia|].
  change (2 ^ 23) with (Zpos 8388608) in H.
  rewrite Pos.compare_cont_spec. cbn [Pos.switch_Eq].
  destruct (Pos.compare_spec p 8388608) as [C|C|C]; try reflexivity. lia.
Qed.

(** A mantissa below [2 ^ (- e)] at an exponent [e <= -24] is rounded to
    at most 1. *)
Lemma round_below_one (sx : bool) (q e : Z) (l : location) :
  0 <= q -> e <= -24 -> q < 2 ^ (- e) ->
  SFleb (SFabs (binary_round_aux F32.prec F32.emax sx q e l)) F32.one = true /\
  F32.within_unit (binary_round_aux F32.prec F32.emax sx q e l) = true.
Proof.
  intros Hq He Hlt.
  destruct (binary_round_aux_spec sx q e l Hq) as [m1 H]. cbv zeta in H.
  destruct H as [[Hlo Hhi] ->].
  set (n1 := Z.max 0 (fexp32 (Zdigits2 q + e) - e)) in *.
  set (e1 := e + n1) in *.
  set (n2 := Z.max 0 (fexp32 (Zdigits2 m1 + e1) - e1)).
  assert (Hdq : Zdigits2 q <= - e) by (apply Zdigits2_le; lia).
  assert (He1 : e1 <= -24).
  { unfold e1, n1. rewrite fexp32_eq. lia. }
  assert (Hn1 : 0 <= n1) by (unfold n1; lia).
  assert (Hp1 : 0 < 2 ^ n1) by (apply Z.pow_pos_nonneg; lia).
  assert (Hq1 : q / 2 ^ n1 < 2 ^ (- e1)).
  { apply Z.div_lt_upper_bound; [exact Hp1|].
    rewrite <- Z.pow_add_r by lia.
    replace (n1 + - e1) with (- e) by (unfold e1; lia). exact Hlt. }
  assert (Hq0 : 0 <= q / 2 ^ n1) by (apply Z.div_pos; lia).
  assert (Hm1 : 0 <= m1 <= 2 ^ (- e1)) by lia.
  assert (Hdm : Zdigits2 m1 <= - e1 + 1).
  { apply Zdigits2_le; [lia| |lia].
    rewrite Z.pow_add_r by lia. change (2 ^ 1) with 2. lia. }
  assert (Hn2 : 0 <= n2) by (unfold n2; lia).
  assert (Hp2 : 0 < 2 ^ n2) by (apply Z.pow_pos_nonneg; lia).
  assert (He2 : e1 + n2 <= -23).
  { unfold n2. rewrite fexp32_eq. lia. }
  assert (Hm2 : 0 <= m1 / 2 ^ n2) by (apply Z.div_pos; lia).
  destruct (m1 / 2 ^ n2) as [|p|p] eqn:Em; [split; reflexivity| |lia].
  replace (e1 + n2 <=? 104) with true by (symmetry; apply Z.leb_le; lia).
  split.
  - cbn [SFabs]. apply leb_one_finite.
    destruct (Z.eq_dec (e1 + n2) (-23)) as [E|E]; [right|left; lia].
    split; [exact E|]. rewrite <- Em.
    apply Z.div_le_upper_bound; [exact Hp2|].
    rewrite <- Z.pow_add_r by lia.
    replace (n2 + 23) with (- e1) by lia. lia.
  - cbn [F32.within_unit]. apply andb_true_iff.
    split; [apply Z.leb_le; lia|]. apply Z.leb_le. rewrite <- Em.
    apply Z.div_le_upper_bound; [exact Hp2|].
    rewrite <- Z.pow_add_r by lia.
    replace (n2 + - (e1 + n2)) with (- e1) by lia. lia.
Qed.

(** The quotient of a finite value by a larger one is at most 1, as
    binary32 rounds it. *)
Lemma div_le_one (sx : bool) (mx md : positive) (ex ed : Z) :
  canonical_mantissa F32.prec F32.emax mx ex = true ->
  (-149 < ed -> 2 ^ 23 <= Zpos md) ->
  ex < ed \/ (ex = ed /\ Zpos mx <= Zpos md) ->
  SFleb (SFabs (SFdiv F32.prec F32.emax (S754_finite sx mx ex)
                      (S754_finite false md ed))) F32.one = true /\
  F32.within_unit (SFdiv F32.prec F32.emax (S754_finite sx mx ex)
                         (S754_finite false md ed)) = true.
Proof.
  intros Hx Hn Hle. apply canonical_mantissa_iff in Hx.
  unfold SFdiv. rewrite div_core_spec. cbv zeta.
  set (dx := Zdigits2 (Zpos mx)) in *. set (dd := Zdigits2 (Zpos md)).
  set (e' := Z.min (fexp32 (dx + ex - (dd + ed))) (ex - ed)).
  set (s := ex - ed - e'). set (a := Zpos mx * 2 ^ s).
  assert (Hs : 0 <= s) by (unfold s, e'; lia).
  pose proof (Zdigits2_bounds (Zpos mx) ltac:(lia)) as [_ Hmx]. fold dx in Hmx.
  assert (Hdx : dx <= 24) by lia.
  assert (Hex : -149 <= ex) by lia.
  assert (Hmx24 : Zpos mx < 2 ^ 24).
  { eapply Z.lt_le_trans; [exact Hmx|]. apply Z.pow_le_mono_r; lia. }
  assert (Hps : 0 < 2 ^ s) by (apply Z.pow_pos_nonneg; lia).
  assert (Ha : 0 <= a / Zpos md) by (apply Z.div_pos; [unfold a; nia|lia]).
  destruct (Z.eq_dec ex ed) as [Ee|Ee];
    [destruct (Pos.eq_dec mx md) as [Em|Em]|].
  - (* equal values: the quotient is exactly 1 *)
    subst ed md. unfold a, s, e', dd. fold dx.
    replace (dx + ex - (dx + ex)) with 0 by lia.
    replace (ex - ex) with 0 by lia.
    change (Z.min (fexp32 0) 0) with (-24).
    change (0 - -24) with 24.
    rewrite (Z.mul_comm (Zpos mx)), Z.div_mul, Z.mod_mul by lia.
    replace (new_location (Zpos mx) 0) with loc_Exact
      by (unfold new_location, new_location_even, new_location_odd;
          destruct (Z.even (Zpos mx)); reflexivity).
    destruct sx; split; vm_compute; reflexivity.
  - (* same exponent, smaller mantissa *)
    subst ed. assert (Hlt : Zpos mx < Zpos md).
    { destruct Hle as [H|[_ H]]; [lia|].
      assert (Zpos mx <> Zpos md) by congruence. lia. }
    assert (Hdd : dx <= dd) by (apply Zdigits2_mono; lia).
    assert (He' : e' <= -24) by (unfold e'; rewrite fexp32_eq; lia).
    apply round_below_one; [exact Ha|exact He'|].
    apply Z.div_lt_upper_bound; [lia|].
    replace (- e') with s by (unfold s; lia). unfold a. nia.
  - (* smaller exponent *)
    assert (Hlt : ex < ed) by lia.
    assert (Hmd : 2 ^ 23 <= Zpos md) by (apply Hn; lia).
    assert (Hdd : 24 <= dd) by (apply Zdigits2_ge; [exact Hmd|lia]).
    assert (He' : e' <= -24) by (unfold e'; rewrite fexp32_eq; lia).
    apply round_below_one; [exact Ha|exact He'|].
    apply Z.div_lt_upper_bound; [lia|].
    replace (- e') with (s + (ed - ex)) by (unfold s; lia).
    rewrite Z.pow_add_r by lia. unfold a.
    assert (H2 : 2 <= 2 ^ (ed - ex)).
    { change 2 with (2 ^ 1) at 1. apply Z.pow_le_mono_r; lia. }
    change (2 ^ 24) with (2 * 2 ^ 23) in Hmx24.
    set (P := 2 ^ (ed - ex)) in *.
    assert (H3 : Zpos mx < Zpos md * P) by nia.
    rewrite (Z.mul_comm (2 ^ s) P), Z.mul_assoc.
    apply Z.mul_lt_mono_pos_r; assumption.
Qed.


(** *** Addition *)

Lemma Zdigits2_shift (m k : Z) :
  0 < m -> 0 <= k -> Zdigits2 (m * 2 ^ k) = Zdigits2 m + k.
Proof.
  intros Hm Hk. pose proof (Zdigits2_bounds m Hm) as [Hl Hu].
  pose proof (Zdigits2_pos m Hm) as Hd.
  assert (Hp : 0 < 2 ^ k) by (apply Z.pow_pos_nonneg; lia).
  apply Z.le_antisymm.
  - apply Zdigits2_le; [lia| |nia].
    rewrite Z.pow_add_r by lia. nia.
  - apply Zdigits2_ge; [|nia].
    replace (Zdigits2 m + k - 1) with (Zdigits2 m - 1 + k) by lia.
    rewrite Z.pow_add_r by lia. nia.
Qed.

Lemma div_pow2_lower (m n : Z) :
  0 < m -> 0 <= n < Zdigits2 m ->
  2 ^ (Zdigits2 m - n - 1) <= m / 2 ^ n.
Proof.
  intros Hm Hn. pose proof (Zdigits2_bounds m Hm) as [Hl _].
  assert (Hp : 0 < 2 ^ n) by (apply Z.pow_pos_nonneg; lia).
  apply Z.div_le_lower_bound; [exact Hp|].
  rewrite <- Z.pow_add_r by lia.
  replace (n + (Zdigits2 m - n - 1)) with (Zdigits2 m - 1) by lia. exact Hl.
Qed.

Lemma iter_xO (m d : positive) :
  Zpos (Pos.iter xO m d) = Zpos m * 2 ^ Zpos d.
Proof.
  induction d as [|d IH] using Pos.peano_ind.
  - cbn. lia.
  - rewrite Pos.iter_succ, Pos2Z.inj_succ, Z.pow_succ_r by lia.
    change (Zpos (Pos.iter xO m d)~0) with (2 * Zpos (Pos.iter xO m d)).
    rewrite IH. lia.
Qed.

Lemma shl_align_spec (m : positive) (e e' : Z) :
  snd (shl_align m e e') = Z.min e e' /\
  Zpos (fst (shl_align m e e')) = Zpos m * 2 ^ (e - Z.min e e').
Proof.
  unfold shl_align. destruct (e' - e) as [|p|p] eqn:E; cbn [fst snd].
  - replace (Z.min e e') with e by lia. rewrite Z.sub_diag. cbn. lia.
  - replace (Z.min e e') with e by lia. rewrite Z.sub_diag. cbn. lia.
  - replace (Z.min e e') with e' by lia. rewrite iter_xO.
    replace (e - e') with (Zpos p) by lia. split; reflexivity.
Qed.

(** Rounding a value that is at least a representable one gives at
    least that one, a normal number unless its exponent is the least, or
    infinity. *)
Lemma binary_round_ge (M mx : positive) (ez ex : Z) :
  Z.max (Zdigits2 (Zpos mx) + ex - 24) (-149) = ex ->
  ez <= ex ->
  Zpos mx * 2 ^ (ex - ez) <= Zpos M ->
  binary_round F32.prec F32.emax false M ez = S754_infinity false \/
  exists md ed,
    binary_round F32.prec F32.emax false M ez = S754_finite false md ed /\
    (-149 < ed -> 2 ^ 23 <= Zpos md) /\
    (ex < ed \/ (ex = ed /\ Zpos mx <= Zpos md)).
Proof.
  intros Hx Hez HM. unfold binary_round.
  set (dx := Zdigits2 (Zpos mx)) in *.
  change (Zpos (digits2_pos M)) with (Zdigits2 (Zpos M)).
  remember (Zdigits2 (Zpos M) + ez) as D eqn:HDdef.
  assert (Hdx : 0 < dx) by (apply Zdigits2_pos; lia).
  assert (HD : dx + ex <= D).
  { rewrite HDdef. replace (dx + ex) with (dx + (ex - ez) + ez) by lia.
    apply Z.add_le_mono_r. unfold dx.
    rewrite <- Zdigits2_shift by lia. apply Zdigits2_mono; [|exact HM].
    assert (0 < 2 ^ (ex - ez)) by (apply Z.pow_pos_nonneg; lia). nia. }
  destruct (shl_align_spec M ez (fexp32 D)) as [He' Hmz].
  destruct (shl_align M ez (fexp32 D)) as [mz ez'] eqn:Ea.
  cbn [fst snd] in He', Hmz.
  assert (Hdz : Zdigits2 (Zpos mz) + ez' = D).
  { rewrite Hmz, Zdigits2_shift by lia. lia. }
  destruct (binary_round_aux_spec false (Zpos mz) ez' loc_Exact ltac:(lia))
    as [m1 H]. cbv zeta in H. destruct H as [[Hlo _] ->].
  rewrite Hdz in *.
  set (t := fexp32 D) in *.
  assert (Ht : t = Z.max (D - 24) (-149)) by (unfold t; apply fexp32_eq).
  replace (Z.max 0 (t - ez')) with (t - ez') in * by lia.
  replace (ez' + (t - ez')) with t in * by lia.
  set (n1 := t - ez') in *.
  assert (Hn1 : 0 <= n1) by (unfold n1; lia).
  assert (Hp1 : 0 < 2 ^ n1) by (apply Z.pow_pos_nonneg; lia).
  assert (Hm' : 2 ^ (D - t - 1) <= Zpos mz / 2 ^ n1).
  { replace (D - t - 1) with (Zdigits2 (Zpos mz) - n1 - 1) by (unfold n1; lia).
    apply div_pow2_lower; [lia|]. unfold n1. lia. }
  assert (Hm'1 : 1 <= Zpos mz / 2 ^ n1).
  { assert (0 < 2 ^ (D - t - 1)) by (apply Z.pow_pos_nonneg; lia). lia. }
  assert (Hm1 : 0 < m1) by lia.
  pose proof (Zdigits2_pos m1 Hm1) as Hd1.
  set (n2 := Z.max 0 (fexp32 (Zdigits2 m1 + t) - t)).
  assert (Hn2 : n2 = 0 \/ (0 < n2 /\ n2 = Zdigits2 m1 - 24)).
  { unfold n2. rewrite fexp32_eq. lia. }
  assert (Hm2 : 2 ^ (Zdigits2 m1 - n2 - 1) <= m1 / 2 ^ n2).
  { apply div_pow2_lower; [exact Hm1|]. lia. }
  assert (Hm2' : 0 < m1 / 2 ^ n2).
  { assert (0 < 2 ^ (Zdigits2 m1 - n2 - 1))
      by (apply Z.pow_pos_nonneg; lia). lia. }
  destruct (m1 / 2 ^ n2) as [|md|md] eqn:Em; try lia.
  destruct (t + n2 <=? 104); [right|left; reflexivity].
  exists md, (t + n2). split; [reflexivity|]. split.
  - intro He. destruct Hn2 as [Hn2|[Hn2 Hn2']].
    + rewrite Hn2 in *. rewrite Z.pow_0_r, Z.div_1_r in Em.
      assert (D - t - 1 = 23) by lia.
      assert (2 ^ 23 <= Zpos mz / 2 ^ n1) by (rewrite <- H; exact Hm').
      lia.
    + replace (Zdigits2 m1 - n2 - 1) with 23 in Hm2 by lia. exact Hm2.
  - destruct (Z.eq_dec ex (t + n2)) as [E|E]; [right|left; lia].
    split; [exact E|].
    assert (n2 = 0) by lia.
    rewrite H in *. rewrite Z.pow_0_r, Z.div_1_r in Em.
    assert (Zpos mx <= Zpos mz / 2 ^ n1); [|lia].
    apply Z.div_le_lower_bound; [exact Hp1|].
    rewrite Hmz.
    assert (Hsplit : 2 ^ (ex - ez) * 2 ^ (ez - Z.min ez t) = 2 ^ n1).
    { rewrite <- Z.pow_add_r by lia. f_equal. unfold n1. lia. }
    rewrite <- Hsplit.
    assert (0 < 2 ^ (ez - Z.min ez t)) by (apply Z.pow_pos_nonneg; lia).
    nia.
Qed.


Lemma add_ge (mx me : positive) (ex ee : Z) :
  canonical_mantissa F32.prec F32.emax mx ex = true ->
  SFadd F32.prec F32.emax (S754_finite false mx ex) (S754_finite false me ee)
    = S754_infinity false \/
  exists md ed,
    SFadd F32.prec F32.emax (S754_finite false mx ex)
          (S754_finite false me ee) = S754_finite false md ed /\
    (-149 < ed -> 2 ^ 23 <= Zpos md) /\
    (ex < ed \/ (ex = ed /\ Zpos mx <= Zpos md)).
Proof.
  intro Hx. apply canonical_mantissa_iff in Hx.
  unfold SFadd. cbv zeta. cbn [cond_Zopp].
  set (ez := Z.min ex ee).
  destruct (shl_align_spec mx ex ez) as [_ Ha].
  destruct (shl_align_spec me ee ez) as [_ Hb].
  replace (Z.min ex ez) with ez in Ha by (unfold ez; lia).
  set (a := fst (shl_align mx ex ez)) in *.
  set (b := fst (shl_align me ee ez)) in *.
  change (Zpos a + Zpos b) with (Zpos (a + b)).
  cbn [binary_normalize].
  apply binary_round_ge; [exact Hx|unfold ez; lia|].
  rewrite <- Ha. lia.
Qed.

(** *** The order of finite magnitudes *)

Lemma leb_finite_iff (m1 m2 : positive) (e1 e2 : Z) :
  SFleb (S754_finite false m1 e1) (S754_finite false m2 e2) = true <->
  e1 < e2 \/ (e1 = e2 /\ Zpos m1 <= Zpos m2).
Proof.
  unfold SFleb, SFcompare. rewrite Pos.compare_cont_spec. cbn [Pos.switch_Eq].
  destruct (Z.compare_spec e1 e2) as [E|E|E].
  - destruct (Pos.compare_spec m1 m2) as [C|C|C]; split; intro H;
      try reflexivity; try discriminate H; lia.
  - split; [left; exact E|reflexivity].
  - split; [discriminate|lia].
Qed.

Lemma abs_magnitude (x : spec_float) :
  F32.finite x = true -> magnitude (SFabs x).
Proof.
  destruct x as [s| | |s m e]; cbn [F32.finite SFabs]; try discriminate.
  - left. reflexivity.
  - intro H. unfold bounded in H. apply andb_true_iff in H.
    right. exists m, e. split; [reflexivity|apply H].
Qed.

Lemma max_magnitude (a b : spec_float) :
  magnitude a -> magnitude b ->
  (F32.max a b = a \/ F32.max a b = b) /\
  SFleb a (F32.max a b) = true /\ SFleb b (F32.max a b) = true.
Proof.
  intros [->|[m1 [e1 [-> _]]]] [->|[m2 [e2 [-> _]]]].
  - cbn. auto.
  - change (F32.max (S754_zero false) (S754_finite false m2 e2))
      with (S754_finite false m2 e2).
    split; [right; reflexivity|]. split; [reflexivity|].
    apply leb_finite_iff. lia.
  - change (F32.max (S754_finite false m1 e1) (S754_zero false))
      with (S754_finite false m1 e1).
    split; [left; reflexivity|]. split; [|reflexivity].
    apply leb_finite_iff. lia.
  - pose proof (leb_finite_iff m1 m2 e1 e2) as L12.
  pose proof (leb_finite_iff m2 m1 e2 e1) as L21.
  pose proof (leb_finite_iff m1 m1 e1 e1) as L11.
  pose proof (leb_finite_iff m2 m2 e2 e2) as L22.
  unfold F32.max.
  destruct (SFcompare (S754_finite false m1 e1) (S754_finite false m2 e2))
    as [[| |]|] eqn:C.
  + split; [left; reflexivity|]. split; [apply L11; lia|].
    apply L21. unfold SFleb in L12. rewrite C in L12.
    unfold SFcompare in C. rewrite Pos.compare_cont_spec in C.
    cbn [Pos.switch_Eq] in C.
    destruct (Z.compare_spec e1 e2); try discriminate C.
    destruct (Pos.compare_spec m1 m2); try discriminate C. lia.
  + split; [right; reflexivity|]. split; [|apply L22; lia].
    unfold SFleb. rewrite C. reflexivity.
  + split; [left; reflexivity|]. split; [apply L11; lia|].
    apply L21. unfold SFcompare in C. rewrite Pos.compare_cont_spec in C.
    cbn [Pos.switch_Eq] in C.
    destruct (Z.compare_spec e1 e2); try discriminate C; [|lia].
    destruct (Pos.compare_spec m1 m2); try discriminate C. lia.
  + discriminate C.
Qed.

Lemma leb_magnitude_trans (a b c : spec_float) :
  magnitude a -> magnitude b -> magnitude c ->
  SFleb a b = true -> SFleb b c = true -> SFleb a c = true.
Proof.
  intros [->|[m1 [e1 [-> _]]]] [->|[m2 [e2 [-> _]]]] [->|[m3 [e3 [-> _]]]];
    try (cbn; congruence).
  rewrite !leb_finite_iff. lia.
Qed.

(** The running maximum is one of the magnitudes and bounds them all. *)
Lemma fold_max_magnitude (l : list spec_float) (a : spec_float) :
  magnitude a -> Forall magnitude l ->
  magnitude (fold_left F32.max l a) /\
  Forall (fun x => SFleb x (fold_left F32.max l a) = true) (a :: l).
Proof.
  intros Ha Hl. revert a Ha.
  induction Hl as [|b l Hb _ IH]; intros a Ha; cbn [fold_left].
  - split; [exact Ha|]. constructor; [|constructor].
    destruct (max_magnitude a a Ha Ha) as [_ [H _]].
    destruct Ha as [->|[m [e [-> _]]]]; [reflexivity|].
    apply leb_finite_iff. lia.
  - destruct (max_magnitude a b Ha Hb) as [Hm [Hla Hlb]].
    assert (Hmm : magnitude (F32.max a b))
      by (destruct Hm as [->| ->]; assumption).
    destruct (IH _ Hmm) as [Hres Hall]. split; [exact Hres|].
    inversion Hall as [|? ? Hmax Hrest]; subst.
    constructor; [|constructor; [|exact Hrest]].
    + exact (leb_magnitude_trans _ _ _ Ha Hmm Hres Hla Hmax).
    + exact (leb_magnitude_trans _ _ _ Hb Hmm Hres Hlb Hmax).
Qed.

Lemma F32_eps_eq : F32.eps = S754_finite false 11258999 (-50).
Proof. vm_compute. reflexivity. Qed.

(** A finite sample divided by (a bound of its magnitude + 1e-8) has
    magnitude at most 1. *)
Lemma normalized_sample_le_one (x m : spec_float) :
  F32.finite x = true -> magnitude m -> SFleb (SFabs x) m = true ->
  SFleb (SFabs (SFdiv F32.prec F32.emax x
                  (SFadd F32.prec F32.emax m F32.eps))) F32.one = true /\
  F32.within_unit (SFdiv F32.prec F32.emax x
                     (SFadd F32.prec F32.emax m F32.eps)) = true.
Proof.
  intros Hx Hm Hle. rewrite F32_eps_eq.
  destruct Hm as [->|[mm [em [-> Hcm]]]].
  - (* silence *)
    destruct x as [s| | |s mx ex]; try discriminate Hx.
    + destruct s; split; vm_compute; reflexivity.
    + discriminate Hle.
  - destruct (add_ge mm 11258999 em (-50) Hcm) as [->|[md [ed [-> [Hn Hge]]]]].
    + destruct x as [s| | |s mx ex]; try discriminate Hx; split; reflexivity.
    + destruct x as [s| | |s mx ex]; try discriminate Hx;
        [split; reflexivity|].
      cbn [F32.finite] in Hx. unfold bounded in Hx.
      apply andb_true_iff in Hx. destruct Hx as [Hcx _].
      cbn [SFabs] in Hle. apply leb_finite_iff in Hle.
      apply div_le_one; [exact Hcx|exact Hn|lia].
Qed.

End Rounding32.

(** ** Binary32: samples and entries that are not finite *)

Section Binary32.

Variable torchaudio_load : list byte -> exn + (list (list spec_float) * Z).
Variable resample : Z -> list spec_float -> exn + list spec_float.
Variable http_str : nat -> string -> string.

Local Abbreviation preprocess := (preprocess_audio torchaudio_load resample http_str).
Local Abbreviation embed := (create_embedding torchaudio_load resample http_str).
Local Abbreviation embed_raw := (create_embedding_raw torchaudio_load resample http_str).

Local Abbreviation NaN := S754_nan.
Local Abbreviation Inf := (S754_infinity false).

Lemma max_nan_r (a : spec_float) : F32.max a NaN = NaN.
Proof. destruct a; reflexivity. Qed.

Lemma fold_max_nan (l : list spec_float) (a : spec_float) :
  a = NaN \/ In NaN l -> fold_left F32.max l a = NaN.
Proof.
  revert a. induction l as [|b l IH]; intros a H; cbn [fold_left].
  - destruct H as [H|[]]. exact H.
  - apply IH. destruct H as [-> | [-> | H]].
    + left. reflexivity.
    + left. apply max_nan_r.
    + right. exact H.
Qed.

Lemma max_inf_r (a : spec_float) : a <> NaN -> F32.max a Inf = Inf.
Proof. destruct a as [s|[|]| |s m e]; try reflexivity. congruence. Qed.

Lemma max_inf_l (b : spec_float) : b <> NaN -> F32.max Inf b = Inf.
Proof. destruct b as [s|[|]| |s m e]; try reflexivity. congruence. Qed.

Lemma fold_max_inf (l : list spec_float) (a : spec_float) :
  ~ In NaN (a :: l) ->
  a = Inf \/ In Inf l -> fold_left F32.max l a = Inf.
Proof.
  revert a. induction l as [|b l IH]; intros a Hn H; cbn [fold_left].
  - destruct H as [H|[]]. exact H.
  - assert (Ha : a <> NaN) by (intros ->; apply Hn; left; reflexivity).
    assert (Hb : b <> NaN)
      by (intros ->; apply Hn; right; left; reflexivity).
    assert (Hl : ~ In NaN l) by (intro Hi; apply Hn; right; right; exact Hi).
    destruct H as [-> | [-> | H]].
    + apply IH; [|left; now apply max_inf_l].
      rewrite (max_inf_l b Hb). intros [E|E]; [discriminate E|contradiction].
    + apply IH; [|left; now apply max_inf_r].
      rewrite (max_inf_r a Ha). intros [E|E]; [discriminate E|contradiction].
    + apply IH; [|right; exact H].
      intros [E|E]; [|contradiction].
      unfold F32.max in E.
      destruct (SFcompare a b) as [[| |]|] eqn:C; try congruence.
      destruct a as [s|[|]| |s m e], b as [s'|[|]| |s' m' e'];
        try discriminate C; congruence.
Qed.

Lemma abs_nan_iff (x : spec_float) : SFabs x = NaN <-> x = NaN.
Proof. destruct x; split; intro H; try discriminate H; reflexivity. Qed.

Lemma div_nan (x : spec_float) : a_div x NaN = NaN.
Proof. destruct x; reflexivity. Qed.

Lemma map_div_nan (c : list spec_float) :
  map (fun x => a_div x NaN) c = repeat NaN (List.length c).
Proof.
  induction c as [|x c IH]; [reflexivity|].
  cbn [map List.length repeat]. now rewrite div_nan, IH.
Qed.

(** X17: samples that are not finite are not rejected.  One NaN sample
    in a mono 16 kHz recording turns the whole preprocessed waveform into
    NaN, at its full length: the maximum is NaN, and so is every quotient.
    One infinite sample (and no NaN) makes the divisor infinite: every
    finite sample becomes a zero and every infinite one NaN. *)
Theorem non_finite_samples bs c :
  torchaudio_load bs = inr ([c], 16000%Z) ->
  (In NaN c ->
   preprocess bs = ([EvLoad], inr (repeat NaN (List.length c)))) /\
  (~ In NaN c -> (exists s, In (S754_infinity s) c) ->
   preprocess bs = ([EvLoad], inr (map (fun x => a_div x Inf) c)) /\
   Forall (fun y => y = NaN \/ exists s, y = S754_zero s)
          (map (fun x => a_div x Inf) c)).
Proof.
  intro Hload. split.
  - intro Hnan.
    assert (Hm : torch_max (torch_abs c) = inr NaN).
    { destruct c as [|x c]; [destruct Hnan|].
      unfold torch_abs. cbn [map torch_max]. f_equal.
      apply fold_max_nan. destruct Hnan as [->|H].
      - left. reflexivity.
      - right. apply in_map_iff. exists NaN. split; [reflexivity|exact H]. }
    rewrite (preprocess_audio_mono_16k _ _ _ _ _ _ Hload Hm).
    change (a_add NaN a_eps) with NaN. now rewrite map_div_nan.
  - intros Hn [s Hs].
    assert (Hm : torch_max (torch_abs c) = inr Inf).
    { destruct c as [|x c]; [destruct Hs|].
      unfold torch_abs. cbn [map torch_max]. f_equal.
      apply fold_max_inf.
      - intro H. change (In NaN (map SFabs (x :: c))) in H.
        apply in_map_iff in H. destruct H as [y [Hy Hin]].
        apply (proj1 (abs_nan_iff y)) in Hy. subst y. contradiction.
      - destruct Hs as [->|H].
        + left. reflexivity.
        + right. apply in_map_iff. exists (S754_infinity s).
          split; [reflexivity|exact H]. }
    rewrite (preprocess_audio_mono_16k _ _ _ _ _ _ Hload Hm).
    replace (a_add Inf a_eps) with Inf by (vm_compute; reflexivity).
    split; [reflexivity|].
    apply Forall_forall. intros y Hy. apply in_map_iff in Hy.
    destruct Hy as [x [<- _]].
    destruct x as [s'|[|]| |s' m e]; cbn;
      solve [left; reflexivity | right; eexists; reflexivity].
Qed.

Lemma sum_sq_nan (v : list spec_float) (a : spec_float) :
  a = NaN \/ In NaN v ->
  fold_left (fun acc x => a_add acc (a_mul x x)) v a = NaN.
Proof.
  revert a. induction v as [|x v IH]; intros a H; cbn [fold_left].
  - destruct H as [H|[]]. exact H.
  - apply IH. destruct H as [-> | [-> | H]].
    + left. reflexivity.
    + left. destruct a; reflexivity.
    + right. exact H.
Qed.

(** The normalization of a raw embedding with a NaN entry. *)
Lemma normalized_nan (raw : list spec_float) :
  In NaN raw -> normalized raw = repeat NaN (List.length raw).
Proof.
  intro H. rewrite normalized_entries.
  unfold sum_sq. rewrite sum_sq_nan by (right; exact H).
  change (a_add (a_sqrt NaN) a_eps) with NaN. apply map_div_nan.
Qed.

(** X18: a NaN entry in the output of the model is not caught either.
    The norm is NaN, so every entry of the normalized vector is NaN, and
    both handlers return it in a response that says [success = true]. *)
Theorem nan_embedding_returned m ct bs t w raw :
  bad_content_type ct = false ->
  bs <> [] ->
  preprocess bs = (t, inr w) ->
  (min_samples <= len w)%Z ->
  encode_batch m w = inr raw ->
  List.length raw <> 1%nat ->
  In NaN raw ->
  outcome (embed (Some m) {| content_type := ct; file_body := bs |}) =
    inr {| embedding := repeat NaN (List.length raw);
           success := true;
           message := "Successfully generated " ++ str_of_Z (len raw) ++
                      "-dimensional embedding" |} /\
  outcome (embed_raw (Some m) bs) =
    inr {| raw_embedding := repeat NaN (List.length raw);
           raw_success := true;
           raw_dimension := len raw |}.
Proof.
  intros Hc Hb Hp Hl He Hn Hnan.
  rewrite (embed_served _ _ _ m ct bs t w raw Hc Hb Hp Hl He Hn).
  rewrite (embed_raw_served _ _ _ m bs t w raw Hb Hp Hl He Hn).
  cbn [outcome snd]. now rewrite (normalized_nan raw Hnan).
Qed.

Lemma fold_max_zero (l : list spec_float) :
  Forall (fun x => x = S754_zero false) l ->
  fold_left F32.max l (S754_zero false) = S754_zero false.
Proof.
  induction 1 as [|x l -> _ IH]; [reflexivity|exact IH].
Qed.

Lemma div_zero_eps (c : list spec_float) :
  Forall (fun x => exists s, x = S754_zero s) c ->
  map (fun x => a_div x F32.eps) c = c.
Proof.
  induction 1 as [|x l [s ->] _ IH]; [reflexivity|].
  cbn [map]. rewrite IH. f_equal. destruct s; vm_compute; reflexivity.
Qed.

(** X19: silence in the arithmetic of the tensors.  A mono 16 kHz
    recording whose samples are all zero, of either sign, comes out of
    preprocessing unchanged: the maximum is +0, the divisor is 1e-8 as
    binary32 has it, and a zero divided by it is the same zero. *)
Theorem silence_binary32 bs c :
  torchaudio_load bs = inr ([c], 16000%Z) ->
  c <> [] ->
  Forall (fun x => exists s, x = S754_zero s) c ->
  preprocess bs = ([EvLoad], inr c).
Proof.
  intros Hload Hne Hz.
  assert (Hm : torch_max (torch_abs c) = inr (S754_zero false)).
  { destruct c as [|x c]; [congruence|].
    inversion Hz as [|? ? [s ->] Hz']; subst.
    unfold torch_abs. cbn [map torch_max]. f_equal.
    change (a_abs (S754_zero s)) with (S754_zero false).
    apply fold_max_zero. apply Forall_forall. intros y Hy.
    apply in_map_iff in Hy. destruct Hy as [z [<- Hin]].
    rewrite Forall_forall in Hz'. destruct (Hz' z Hin) as [s' ->].
    reflexivity. }
  rewrite (preprocess_audio_mono_16k _ _ _ _ _ _ Hload Hm).
  replace (a_add (S754_zero false) a_eps) with F32.eps
    by (vm_compute; reflexivity).
  now rewrite div_zero_eps.
Qed.

(** X22: the normalized samples stay within the unit interval in
    binary32.  Whenever the channel that is normalized (the mixdown of the
    decoded recording, resampled when the rate asks for it) has a sample
    and all its samples are finite, preprocessing succeeds and every
    sample of the result has magnitude at most 1, however the sum
    [peak + 1e-8] and the quotients are rounded: it compares as at most
    1.0, and the number it stands for is at most 1 in magnitude. *)
Theorem preprocessed_within_unit bs w sr c :
  torchaudio_load bs = inr (w, sr) ->
  (if (sr =? 16000)%Z then [c] = to_mono w
   else resample_channels resample sr (to_mono w) = inr [c]) ->
  c <> [] ->
  Forall (fun x => F32.finite x = true) c ->
  exists out,
    outcome (preprocess bs) = inr out /\
    List.length out = List.length c /\
    Forall (fun y => SFleb (SFabs y) F32.one = true /\
                     F32.within_unit y = true) out.
Proof.
  intros Hload Hc Hne Hfin.
  destruct c as [|x0 c']; [congruence|].
  set (c := x0 :: c') in *.
  set (m := fold_left F32.max (map SFabs c') (SFabs x0)).
  assert (Hmag : Forall F32.magnitude (map SFabs c)).
  { apply Forall_forall. intros y Hy. apply in_map_iff in Hy.
    destruct Hy as [x [<- Hx]]. apply abs_magnitude.
    rewrite Forall_forall in Hfin. now apply Hfin. }
  inversion Hmag as [|? ? Hm0 Hml]; subst.
  destruct (fold_max_magnitude _ _ Hm0 Hml) as [Hm Hall]. fold m in Hm, Hall.
  exists (map (fun x => a_div x (a_add m a_eps)) c).
  split; [|split].
  - apply (preprocess_audio_result _ _ _ bs w sr _ Hload).
    exists [c], m. split; [|split].
    + destruct (sr =? 16000)%Z; [|exact Hc]. exact Hc.
    + unfold flatten. cbn [List.concat]. rewrite app_nil_r. reflexivity.
    + reflexivity.
  - apply length_map.
  - apply Forall_forall. intros y Hy. apply in_map_iff in Hy.
    destruct Hy as [x [<- Hx]].
    apply normalized_sample_le_one.
    + rewrite Forall_forall in Hfin. now apply Hfin.
    + exact Hm.
    + change (SFabs x0 :: map SFabs c') with (map SFabs c) in Hall.
      rewrite Forall_forall in Hall. apply Hall. now apply in_map.
Qed.

End Binary32.

(** ** The claims on concrete requests *)

Section Concrete.

Import Example.

(** *** Short clips: what each entry point says about the duration *)

Lemma duration_reported_all :
  forallb duration_reported (map Z.of_nat (seq 0 (Z.to_nat min_samples)))
  = true.
Proof. vm_compute. reflexivity. Qed.

(** On [/embed] the detail of a too-short clip reports its duration. *)
Lemma too_short_reports_duration (n : Z) :
  (0 <= n < min_samples)%Z -> duration_reported n = true.
Proof.
  intro H. pose proof duration_reported_all as Hall.
  rewrite forallb_forall in Hall. apply Hall.
  apply in_map_iff. exists (Z.to_nat n). split; [lia|].
  apply in_seq. lia.
Qed.

(** C2: a clip of 0.2 s and one of 0.3 s, both too short.  [/embed]
    answers 400 and reports "0.20 seconds" and "0.30 seconds";
    [/embed-raw] answers 400 with one and the same detail for both, which
    carries no duration. *)
Theorem raw_too_short_omits_duration :
  embed_raw (Some model3) (silence 200) =
    ([EvLoad],
     inl (HTTPException 400 "Audio too short. Minimum 0.5 seconds required"))
  /\
  embed_raw (Some model3) (silence 300) =
    ([EvLoad],
     inl (HTTPException 400 "Audio too short. Minimum 0.5 seconds required"))
  /\
  embed (Some model3) (wav (silence 200)) =
    ([EvRead; EvLoad],
     inl (HTTPException 400
       "Audio too short. Minimum 0.5 seconds required, got 0.20 seconds"))
  /\
  embed (Some model3) (wav (silence 300)) =
    ([EvRead; EvLoad],
     inl (HTTPException 400
       "Audio too short. Minimum 0.5 seconds required, got 0.30 seconds")).
Proof. repeat split; vm_compute; reflexivity. Qed.

(** *** Order of the checks *)

Lemma embed_check_order_witness :
  outcome (embed None (text [])) =
    inl (HTTPException 400 content_type_detail) /\
  outcome (embed None (text [])) <>
    inl (HTTPException 400 "Empty audio file").
Proof.
  destruct (embed_check_order Standin.pcm8_load Standin.keep_all
              Standin.http_str None (text [])) as [_ [_ [_ [_ H]]]].
  apply H; reflexivity.
Defined.

(** C3, as stated, fails on an upload without a content-type tag: it is
    rejected with the content-type detail although no tag is present. *)
Lemma untagged_upload_rejected :
  outcome (embed (Some model3) (untagged (silence 500))) =
    inl (HTTPException 400 content_type_detail) /\
  ~ (exists s, content_type (untagged (silence 500)) = Some s /\
               prefix "audio/" s = false).
Proof.
  split; [reflexivity|]. intros [s [H _]]. discriminate.
Qed.

(** C7, as stated, fails on an empty upload tagged "text/plain": the
    detail is the content-type one and does not mention emptiness. *)
Lemma empty_text_upload_detail :
  exists t detail,
    embed (Some model3) (text []) = (t, inl (HTTPException 400 detail)) /\
    contains "empty" (lower detail) = false.
Proof. exists [], content_type_detail. split; reflexivity. Qed.

Lemma empty_payload_rejected_witness :
  exists t detail,
    embed (Some model3) (wav []) = (t, inl (HTTPException 400 detail)) /\
    ran_pipeline t = false /\
    contains "empty" (lower detail) = true.
Proof.
  destruct (empty_payload_rejected Standin.pcm8_load Standin.keep_all
              Standin.http_str (Some model3) (wav []) eq_refl)
    as [_ [t [d [H1 [H2 [H3 _]]]]]].
  exists t, d. split; [exact H1|]. split; [exact H2|].
  apply H3. reflexivity.
Defined.

(** C6, as stated, fails on an empty payload sent while the model is not
    loaded: the answer is the 400 of the emptiness check, not a 500. *)
Lemma not_loaded_empty_payload :
  exists c d,
    outcome (embed_raw None []) = inl (HTTPException c d) /\ c <> 500%nat.
Proof. exists 400%nat, "Empty audio data". split; [reflexivity|discriminate]. Qed.

(** *** Dimension of the embedding *)



(** *** Peak normalization in binary32 *)


(** X16: the duration [/embed] reports for a clip that is too short.
    The detail ends in "got 0.hh seconds", [hh] being the number of samples
    divided by 16000 and rounded to hundredths (at most half a hundredth
    off); so a clip of more than 7920 samples, still too short, is told
    "Minimum 0.5 seconds required, got 0.50 seconds". *)
Theorem too_short_duration_text {T : Type} {A : Arith T}
    (torchaudio_load : list byte -> exn + (list (list T) * Z))
    (resample : Z -> list T -> exn + list T)
    (http_str : nat -> string -> string)
    (model : option (EncoderClassifier T)) (file : UploadFile)
    (t : list event) (w : list T) :
  bad_content_type (content_type file) = false ->
  file_body file <> [] ->
  preprocess_audio torchaudio_load resample http_str (file_body file) =
    (t, inr w) ->
  (len w < min_samples)%Z ->
  exists h : Z,
    outcome (create_embedding torchaudio_load resample http_str model file) =
      inl (HTTPException 400
             ("Audio too short. Minimum 0.5 seconds required, got 0." ++
              two_digits h ++ " seconds")) /\
    (0 <= h <= 50)%Z /\
    (Z.abs (160 * h - len w) <= 80)%Z /\
    ((7920 < len w)%Z -> h = 50%Z).
Proof.
  intros Hc Hb Hp Hl.
  rewrite (embed_too_short torchaudio_load resample http_str
             model file t w Hc Hb Hp Hl).
  cbn [outcome snd].
  assert (Hn : (0 <= len w < min_samples)%Z) by (unfold len in *; lia).
  pose proof (too_short_reports_duration _ Hn) as H.
  unfold duration_reported in H.
  destruct (py_truediv (len w) 16000) as [[|]| | |[|] m e];
    try discriminate H.
  - apply andb_true_iff in H. destruct H as [H0 H].
    apply Z.eqb_eq in H0. apply String.eqb_eq in H.
    exists 0%Z. rewrite H, H0. repeat split; try reflexivity; lia.
  - apply andb_true_iff in H. destruct H as [H H4].
    apply andb_true_iff in H. destruct H as [H H3].
    apply andb_true_iff in H. destruct H as [H1 H2].
    apply Z.leb_le in H1, H2, H3. apply String.eqb_eq in H4.
    exists (hundredths m e). rewrite H4.
    repeat split; try reflexivity; lia.
Qed.

(** *** The entry points on concrete requests *)

Lemma clip_preprocessed :
  preprocess (clip 500 xc0) = ([EvLoad], inr (preprocessed (clip 500 xc0))).
Proof. vm_compute. reflexivity. Qed.

Lemma short_clip_preprocessed :
  preprocess (silence 200) = ([EvLoad], inr (preprocessed (silence 200))).
Proof. vm_compute. reflexivity. Qed.

Lemma too_short_duration_text_witness :
  exists h : Z,
    outcome (embed (Some model3) (wav (silence 200))) =
      inl (HTTPException 400
             ("Audio too short. Minimum 0.5 seconds required, got 0." ++
              two_digits h ++ " seconds")) /\
    (0 <= h <= 50)%Z /\
    (Z.abs (160 * h - len (preprocessed (silence 200))) <= 80)%Z /\
    ((7920 < len (preprocessed (silence 200)))%Z -> h = 50%Z).
Proof.
  apply (too_short_duration_text Standin.pcm8_load Standin.keep_all
           Standin.http_str (Some model3) (wav (silence 200)) [EvLoad]
           (preprocessed (silence 200))).
  - reflexivity.
  - intro H. vm_compute in H. discriminate H.
  - exact short_clip_preprocessed.
  - vm_compute. reflexivity.
Defined.

Lemma endpoints_agree_witness :
  stages (trace (embed (Some model3) (wav (clip 500 xc0)))) =
    EvRead :: stages (trace (embed_raw (Some model3) (clip 500 xc0))).
Proof.
  exact (proj1 (endpoints_agree Standin.pcm8_load Standin.keep_all
                  Standin.http_str (Some model3) (Some "audio/wav")
                  (clip 500 xc0) eq_refl)).
Defined.

Lemma failure_text_passed_on_witness :
  create_embedding (T := spec_float) (Standin.failing_load "bad header")
      Standin.keep_all Standin.http_str None (wav [x00]) =
    ([EvRead; EvLoad;
      EvLog ERROR "Error preprocessing audio: bad header"],
     inl (HTTPException 400 "Audio preprocessing failed: bad header")).
Proof.
  refine (proj1 (proj1 (failure_text_passed_on
                          (T := spec_float)
                          (Standin.failing_load "bad header")
                          Standin.keep_all Standin.http_str None
                          (Some "audio/wav") [x00] eq_refl _)
                   (Exception "bad header") eq_refl)).
  discriminate.
Defined.

Lemma length_check_16k_witness :
  outcome (embed_raw (Some model3) (silence 200)) =
    inl (HTTPException 400 raw_too_short_detail) /\
  outcome (embed (Some model3) (wav (silence 200))) =
    inl (HTTPException 400 (too_short_detail 3200)).
Proof.
  refine (proj1 (length_check_16k Standin.pcm8_load Standin.keep_all
                   Standin.http_str (Some model3) (Some "audio/wav")
                   (silence 200)
                   [map (fun b => a_div (a_of_Z (Z.of_N (Byte.to_N b) - 128))
                                        (a_of_Z 128)) (silence 200)]
                   3200%Z eq_refl _ _ _ _ _) _).
  - intro H. vm_compute in H. discriminate H.
  - vm_compute. reflexivity.
  - discriminate.
  - constructor; [|constructor]. vm_compute. reflexivity.
  - lia.
  - lia.
Defined.

Lemma no_samples_rejected_witness :
  exists msg,
    create_embedding (T := spec_float) (Standin.const_load [[]] 16000%Z)
        Standin.keep_all Standin.http_str None (wav [x00]) =
      ([EvRead; EvLoad; EvLog ERROR ("Error preprocessing audio: " ++ msg)],
       inl (HTTPException 400 ("Audio preprocessing failed: " ++ msg))) /\
    create_embedding_raw (T := spec_float) (Standin.const_load [[]] 16000%Z)
        Standin.keep_all Standin.http_str None [x00] =
      ([EvLoad; EvLog ERROR ("Error preprocessing audio: " ++ msg)],
       inl (HTTPException 400 ("Audio preprocessing failed: " ++ msg))).
Proof.
  apply (no_samples_rejected (T := spec_float)
           (Standin.const_load [[]] 16000%Z) Standin.keep_all
           Standin.http_str None (Some "audio/wav") [x00] [[]]).
  - reflexivity.
  - discriminate.
  - reflexivity.
  - constructor; [reflexivity|constructor].
Defined.

Lemma non_finite_samples_witness :
  preprocess_audio
    (Standin.const_load [[S754_nan; F32.one]] 16000%Z)
    Standin.keep_all Standin.http_str [x00] =
  ([EvLoad], inr [S754_nan; S754_nan]).
Proof.
  refine (proj1 (non_finite_samples
                   (Standin.const_load [[S754_nan; F32.one]] 16000%Z)
                   Standin.keep_all Standin.http_str [x00]
                   [S754_nan; F32.one] eq_refl) _).
  left. reflexivity.
Defined.

Lemma nan_embedding_returned_witness :
  outcome (embed (Some (Standin.const_model [S754_nan; F32.one]))
             (wav (clip 500 xc0))) =
    inr {| embedding := [S754_nan; S754_nan];
           success := true;
           message := "Successfully generated 2-dimensional embedding" |}.
Proof.
  refine (proj1 (nan_embedding_returned
                   Standin.pcm8_load Standin.keep_all Standin.http_str
                   (Standin.const_model [S754_nan; F32.one])
                   (Some "audio/wav") (clip 500 xc0) [EvLoad]
                   (preprocessed (clip 500 xc0)) [S754_nan; F32.one]
                   eq_refl _ clip_preprocessed _ eq_refl _ _)).
  - intro H. vm_compute in H. discriminate H.
  - vm_compute. discriminate.
  - cbn [List.length]. discriminate.
  - left. reflexivity.
Defined.

Lemma silence_binary32_witness :
  preprocess_audio
    (Standin.const_load [[S754_zero false; S754_zero true]] 16000%Z)
    Standin.keep_all Standin.http_str [x00] =
  ([EvLoad], inr [S754_zero false; S754_zero true]).
Proof.
  apply (silence_binary32
           (Standin.const_load [[S754_zero false; S754_zero true]] 16000%Z)
           Standin.keep_all Standin.http_str [x00]
           [S754_zero false; S754_zero true] eq_refl).
  - discriminate.
  - repeat constructor; eexists; reflexivity.
Defined.

Lemma preprocessed_within_unit_witness :
  exists out,
    outcome (preprocess [xc0; x80]) = inr out /\
    List.length out = 2%nat /\
    Forall (fun y => SFleb (SFabs y) F32.one = true /\
                     F32.within_unit y = true) out.
Proof.
  apply (preprocessed_within_unit Standin.pcm8_load Standin.keep_all
           Standin.http_str [xc0; x80]
           [map (fun b => a_div (a_of_Z (Z.of_N (Byte.to_N b) - 128))
                                (a_of_Z 128)) [xc0; x80]]
           16000%Z
           (map (fun b => a_div (a_of_Z (Z.of_N (Byte.to_N b) - 128))
                                (a_of_Z 128)) [xc0; x80])).
  - reflexivity.
  - reflexivity.
  - discriminate.
  - repeat constructor.
Defined.

(** *** Over the reals *)

Open Scope R_scope.














Lemma silence_preprocessed_witness :
  preprocess_audio load_silence Standin.keep_all Standin.http_str [x00] =
    ([EvLoad], inr [0; 0]).
Proof.
  exact (silence_preprocessed load_silence Standin.keep_all Standin.http_str
           [x00] 0 1 eq_refl).
Defined.



End Concrete.
